(** * Firebase Admin (Go) auth package: custom-token minting and ID-token
    verification

    A shallow embedding of [auth/auth.go]: [CustomToken],
    [CustomTokenWithClaims], [VerifyIDToken] and
    [VerifyIDTokenAndCheckRevoked], together with the collaborators they
    call (signer, key source, token codec, user lookup, clock).

    Conventions.
    - A Go [string] and a Go [[]byte] are sequences of bytes: [string] here,
      whose characters are the 256 byte values, so that Go's [len] is
      [String.length].
    - A Go [int64] is a [Z]; the arithmetic the code performs on it wraps
      around ([add64], [mul64]).
    - A Go [(T, error)] result is a [result T]; every [errors.New],
      [fmt.Errorf] or [internal.Error] call site is one constructor of
      [error] that carries the values formatted into the message.
    - The package variable [clk] is read through [clk.Now().Unix()]; a
      [clock] is the sequence of the readings it gives, and the number of
      readings taken so far is threaded through the operations. *)

From Stdlib Require Import ZArith Ascii String List Bool Lia.
From stdpp Require Import base gmap strings list pretty.

Local Open Scope Z_scope.

(** ** Machine integers *)

Definition min_int64 : Z := - 2 ^ 63.
Definition max_int64 : Z := 2 ^ 63 - 1.

Definition in_int64 (z : Z) : Prop := min_int64 <= z <= max_int64.

(** Two's-complement wrap-around of a mathematical integer into [int64]. *)
Definition wrap64 (z : Z) : Z := (z + 2 ^ 63) mod 2 ^ 64 - 2 ^ 63.

(** Go's [+] and [*] on [int64]. *)
Definition add64 (a b : Z) : Z := wrap64 (a + b).
Definition mul64 (a b : Z) : Z := wrap64 (a * b).

(** ** Strings *)

(** [strings.Split(s, sep)] for a one-byte separator: the pieces between
    the occurrences of [sep], in order; a string without [sep] is one
    piece. *)
Fixpoint Split (s : string) (sep : ascii) : list string :=
  match s with
  | EmptyString => [EmptyString]
  | String a s' =>
      if Ascii.eqb a sep then EmptyString :: Split s' sep
      else match Split s' sep with
           | [] => [String a EmptyString]
           | piece :: rest => String a piece :: rest
           end
  end.

(** [strings.Join(elems, sep)]. *)
Fixpoint Join (elems : list string) (sep : string) : string :=
  match elems with
  | [] => ""
  | [x] => x
  | x :: rest => x +:+ sep +:+ Join rest sep
  end.

(** [true] when the byte [a] occurs in [s]. *)
Fixpoint occurs (a : ascii) (s : string) : bool :=
  match s with
  | EmptyString => false
  | String b s' => Ascii.eqb b a || occurs a s'
  end.

(** ** JSON values

    What Go's [interface{}] holds in a claim map. *)
#[warnings="-register-all"]
Inductive json : Type :=
  | JNull
  | JBool (b : bool)
  | JNum (n : Z)
  | JStr (s : string)
  | JArr (items : list json)
  | JObj (fields : list (string * json)).

(** ** Constants of the package (auth.go, lines 31-41) *)

Definition firebaseAudience : string :=
  "https://identitytoolkit.googleapis.com/google.identity.identitytoolkit.v1.IdentityToolkit".
Definition issuerPrefix : string := "https://securetoken.google.com/".
Definition tokenExpSeconds : Z := 3600.

Definition reservedClaims : list string :=
  ["acr"; "amr"; "at_hash"; "aud"; "auth_time"; "azp"; "cnf"; "c_hash";
   "exp"; "firebase"; "iat"; "iss"; "jti"; "nbf"; "nonce"; "sub"].

(** The names deleted from the generic claim map, which the source calls
    the standard claims (auth.go, lines 72 and 237). *)
Definition standardClaims : list string :=
  ["iss"; "aud"; "exp"; "iat"; "sub"; "uid"].

(** ** Errors

    One constructor per place where auth.go (or a collaborator) makes an
    error; the arguments are the values its message is formatted from. *)
Inductive error : Type :=
  (* uid must be non-empty, and not longer than 128 characters *)
  | ErrInvalidUID
  (* developer claim %q is reserved and cannot be specified *)
  | ErrReservedClaim (name : string)
  (* developer claims %q are reserved and cannot be specified *)
  | ErrReservedClaims (names : string)
  (* project id not available *)
  | ErrProjectIDNotAvailable
  (* id token must be a non-empty string *)
  | ErrEmptyIDToken
  (* the token does not have three segments *)
  | ErrSegmentCount
  (* a segment is not base64url text *)
  | ErrBase64
  (* a segment does not hold JSON of the expected shape *)
  | ErrJSON
  (* the key source has no key for the key id of the header *)
  | ErrNoMatchingKey (kid : string)
  (* the key cannot verify signatures of the declared algorithm *)
  | ErrUnsupportedAlgorithm (alg : string)
  (* the signature is not one of the key over the signed prefix *)
  | ErrSignatureMismatch
  (* expected an ID token but got a custom token *)
  | ErrCustomToken
  (* ID token has no 'kid' header *)
  | ErrNoKeyID
  (* ID token has invalid algorithm; expected 'RS256' but got %q *)
  | ErrInvalidAlgorithm (got : string)
  (* ID token has invalid 'aud' (audience) claim; expected %q but got %q *)
  | ErrInvalidAudience (expected got : string)
  (* ID token has invalid 'iss' (issuer) claim; expected %q but got %q *)
  | ErrInvalidIssuer (expected got : string)
  (* ID token issued at future timestamp: %d *)
  | ErrIssuedInFuture (iat : Z)
  (* ID token has expired at: %d *)
  | ErrExpired (exp : Z)
  (* ID token has empty 'sub' (subject) claim *)
  | ErrEmptySubject
  (* ID token has a 'sub' (subject) claim longer than 128 characters *)
  | ErrSubjectTooLong
  (* ID token has been revoked *)
  | ErrIDTokenRevoked
  (* an error returned by the signer's Email or Sign *)
  | ErrSigner (msg : string)
  (* an error returned by the key source while fetching keys *)
  | ErrKeySource (msg : string)
  (* an error returned by the user lookup *)
  | ErrUserLookup (msg : string)
  (* json.Marshal refused a value *)
  | ErrMarshal
  (* not an error value: the run-time panic of an index out of range *)
  | PanicIndexOutOfRange.

(** The error kinds of the specification (section 7). *)
Inductive error_kind : Type :=
  | InputValidation
  | StructuralDecode
  | CryptographicVerification
  | SemanticClaim
  | Revocation
  | TransportUnavailable
  | RuntimePanic.

Definition kind_of (e : error) : error_kind :=
  match e with
  | ErrInvalidUID | ErrReservedClaim _ | ErrReservedClaims _
  | ErrProjectIDNotAvailable | ErrEmptyIDToken | ErrMarshal => InputValidation
  | ErrSegmentCount | ErrBase64 | ErrJSON => StructuralDecode
  | ErrNoMatchingKey _ | ErrUnsupportedAlgorithm _
  | ErrSignatureMismatch => CryptographicVerification
  | ErrCustomToken | ErrNoKeyID | ErrInvalidAlgorithm _
  | ErrInvalidAudience _ _ | ErrInvalidIssuer _ _ | ErrIssuedInFuture _
  | ErrExpired _ | ErrEmptySubject | ErrSubjectTooLong => SemanticClaim
  | ErrIDTokenRevoked => Revocation
  | ErrSigner _ | ErrKeySource _ | ErrUserLookup _ => TransportUnavailable
  | PanicIndexOutOfRange => RuntimePanic
  end.

(** A reserved-claims error, singular or plural (auth.go, lines 168, 170). *)
Definition is_reserved_claims_error (e : error) : bool :=
  match e with
  | ErrReservedClaim _ | ErrReservedClaims _ => true
  | _ => false
  end.

(** Go's [(T, error)]. *)
Inductive result (A : Type) : Type :=
  | Ok (a : A)
  | Err (e : error).
Arguments Ok {A} a.
Arguments Err {A} e.

(** What a collaborator outside this package answers: a value, or a failure
    with its message. *)
Inductive reply (A : Type) : Type :=
  | Got (a : A)
  | Failed (msg : string).
Arguments Got {A} a.
Arguments Failed {A} msg.

Definition from_reply {A} (wrap : string -> error) (r : reply A) : result A :=
  match r with
  | Got a => Ok a
  | Failed msg => Err (wrap msg)
  end.

Definition from_option {A} (e : error) (o : option A) : result A :=
  match o with
  | Some a => Ok a
  | None => Err e
  end.

(** ** The clock and the monad of the operations *)

(** [clk k] is the [k]-th value of [clk.Now().Unix()]. *)
Definition clock : Type := nat -> Z.

(** An operation reads the clock [clk]; it starts after [n] readings and
    returns its result with the number of readings taken by then. *)
Definition M (A : Type) : Type := clock -> nat -> result A * nat.

#[global] Instance M_ret : MRet M := fun A a _ n => (Ok a, n).
#[global] Instance M_bind : MBind M := fun A B f m clk n =>
  match m clk n with
  | (Ok a, n') => f a clk n'
  | (Err e, n') => (Err e, n')
  end.

Definition fail {A} (e : error) : M A := fun _ n => (Err e, n).
Definition lift {A} (r : result A) : M A := fun _ n => (r, n).
(** [clk.Now().Unix()] *)
Definition clk_Now_Unix : M Z := fun clk n => (Ok (clk n), S n).
(** Indexing the segments; out of range it is a run-time panic. *)
Definition index (segments : list string) (i : nat) : M string :=
  lift (from_option PanicIndexOutOfRange (segments !! i)).

(** ** Data model *)

(** [jwtHeader]: the fields auth.go reads and writes (lines 175, 249, 255). *)
Record jwtHeader : Type := {
  Algorithm : string;
  Typ : string;
  KeyID : string }.

(** [Token] (auth.go, lines 50-58). *)
Record Token : Type := {
  Issuer : string;
  Audience : string;
  Expires : Z;
  IssuedAt : Z;
  Subject : string;
  UID : string;
  Claims : gmap string json }.

(** [payload.Claims = claims] and [payload.UID = payload.Subject]. *)
Definition set_Claims (t : Token) (m : gmap string json) : Token :=
  {| Issuer := Issuer t; Audience := Audience t; Expires := Expires t;
     IssuedAt := IssuedAt t; Subject := Subject t; UID := UID t;
     Claims := m |}.
Definition set_UID (t : Token) (u : string) : Token :=
  {| Issuer := Issuer t; Audience := Audience t; Expires := Expires t;
     IssuedAt := IssuedAt t; Subject := Subject t; UID := u;
     Claims := Claims t |}.

(** [customToken]: the payload of a minted token, with the fields the
    composite literal of auth.go sets (lines 176-184). A [nil] claim map is
    the empty map. *)
Module customToken.
Record t : Type := mk {
  Iss : string;
  Sub : string;
  Aud : string;
  UID : string;
  Iat : Z;
  Exp : Z;
  Claims : gmap string json }.
End customToken.

(** [jwtInfo] (auth.go, lines 174-185). *)
Record jwtInfo : Type := {
  header : jwtHeader;
  payload : customToken.t }.

(** ** Collaborators *)

(** The [signer] interface (auth.go, lines 91-94). *)
Record signer : Type := {
  Email : reply string;
  Sign : string -> reply string }.

(** What verifying a signature with a public key gives, for the algorithm
    the header declares. *)
Inductive verify_outcome : Type :=
  | Verified
  | BadSignature
  | BadAlgorithm.

(** Public verification key material: [pk_verify alg data sig]. *)
Record publicKey : Type := {
  pk_verify : string -> string -> string -> verify_outcome }.

Inductive key_lookup : Type :=
  | KeyFound (k : publicKey)
  | KeyNotFound
  | KeyUnavailable (msg : string).

(** Modelled from the spec: the key source of crypto.go is not among the
    sources; its contract (section 4.1) is
    [GetKey(keyID) -> publicKey | NotFoundError], and a failed fetch
    surfaces as an error. *)
Record keySource : Type := {
  GetKey : string -> key_lookup }.

(** The user record, as far as auth.go reads it (line 296). *)
Record UserRecord : Type := {
  UserID : string;
  TokensValidAfterMillis : Z }.

(** [Client] (auth.go, lines 83-89). The fields [is] and [signer] are
    [is_] and [signer_] here; the identity-toolkit service is the lookup
    that [GetUser] performs through it. *)
Record Client : Type := {
  is_ : string -> reply UserRecord;
  ks : keySource;
  projectID : string;
  signer_ : signer;
  version : string }.

(** Modelled from the spec: [Client.GetUser] of user_mgt.go is not among
    the sources; section 6 gives [GetUser(uid) -> {TokensValidAfterMillis,
    ...}]. *)
Definition GetUser (c : Client) (uid : string) : result UserRecord :=
  from_reply ErrUserLookup (is_ c uid).

(** ** The encoding libraries

    [encoding/base64] and [encoding/json] of the Go standard library, at the
    types the package uses them. *)
Class Encoding : Type := {
  (* base64.RawURLEncoding.EncodeToString *)
  EncodeToString : string -> string;
  (* base64.RawURLEncoding.DecodeString *)
  DecodeString : string -> option string;
  (* json.Marshal of a jwtHeader and of a customToken *)
  MarshalHeader : jwtHeader -> option string;
  MarshalPayload : customToken.t -> option string;
  (* json.Unmarshal into a jwtHeader, a Token, a map[string]interface{} *)
  UnmarshalHeader : string -> option jwtHeader;
  UnmarshalToken : string -> option Token;
  UnmarshalClaims : string -> option (gmap string json) }.

(** ** The token codec (jwt.go) *)

Section Codec.
Context {enc : Encoding}.

(** Modelled from the spec: [encode] of jwt.go is not among the sources;
    section 4.3: base64url of the JSON of the value. *)
Definition encode {A} (marshal : A -> option string) (v : A) : result string :=
  match marshal v with
  | Some b => Ok (EncodeToString b)
  | None => Err ErrMarshal
  end.

(** Modelled from the spec: [decode] of jwt.go is not among the sources;
    section 4.3: [Decode(segment, target)] base64url-decodes a single
    segment and JSON-deserializes it into the target, and fails with a
    decode error on malformed base64 or JSON. *)
Definition decode {A} (unmarshal : string -> option A) (s : string) : result A :=
  match DecodeString s with
  | None => Err ErrBase64
  | Some b => from_option ErrJSON (unmarshal b)
  end.

(** Modelled from the spec: [jwtInfo.Token] of jwt.go is not among the
    sources; section 4.3: [Encode] base64url-encodes header JSON and payload
    JSON, joins them with a dot, computes the signer's signature over the
    joined prefix, base64url-encodes the signature and appends it as the
    third dot-segment. *)
Definition jwtInfo_Token (info : jwtInfo) (s : signer) : result string :=
  match encode MarshalHeader (header info) with
  | Err e => Err e
  | Ok h =>
      match encode MarshalPayload (payload info) with
      | Err e => Err e
      | Ok p =>
          let tokenData := h +:+ "." +:+ p in
          match Sign s tokenData with
          | Failed msg => Err (ErrSigner msg)
          | Got sig => Ok (tokenData +:+ "." +:+ EncodeToString sig)
          end
      end
  end.

(** Modelled from the spec: [verifyToken] of jwt.go is not among the
    sources; sections 4.3 and 4.5: the token must split into exactly three
    dot-separated segments; the signature is verified using the key source
    keyed by the header's key identifier and the declared algorithm, over
    the header+payload prefix and the decoded signature segment; unknown key
    id, algorithm mismatch at the crypto layer and signature mismatch are
    failures. [None] is Go's [nil] error. *)
Definition verifyToken (token : string) (ks : keySource) : option error :=
  match Split token "." with
  | [s0; s1; s2] =>
      match decode UnmarshalHeader s0 with
      | Err e => Some e
      | Ok h =>
          match GetKey ks (KeyID h) with
          | KeyUnavailable msg => Some (ErrKeySource msg)
          | KeyNotFound => Some (ErrNoMatchingKey (KeyID h))
          | KeyFound k =>
              match DecodeString s2 with
              | None => Some ErrBase64
              | Some sig =>
                  match pk_verify k (Algorithm h) (s0 +:+ "." +:+ s1) sig with
                  | Verified => None
                  | BadSignature => Some ErrSignatureMismatch
                  | BadAlgorithm => Some (ErrUnsupportedAlgorithm (Algorithm h))
                  end
              end
          end
      end
  | _ => Some ErrSegmentCount
  end.

End Codec.

(** ** The operations of auth.go *)

Section Auth.
Context {enc : Encoding}.

(** The loop of lines 161-166: the reserved names that are keys of
    [devClaims], in the order of [reservedClaims]. *)
Definition disallowed (devClaims : gmap string json) : list string :=
  filter (fun k => is_Some (devClaims !! k)) reservedClaims.

(** auth.go, lines 151-187. *)
Definition CustomTokenWithClaims (c : Client) (uid : string)
    (devClaims : gmap string json) : M string :=
  iss ← lift (from_reply ErrSigner (Email (signer_ c)));
  if (String.length uid =? 0)%nat || (128 <? String.length uid)%nat
  then fail ErrInvalidUID
  else
    let disallowed := disallowed devClaims in
    if (length disallowed =? 1)%nat
    then fail (ErrReservedClaim (nth 0 disallowed ""))
    else if (1 <? length disallowed)%nat
    then fail (ErrReservedClaims (Join disallowed ", "))
    else
      now ← clk_Now_Unix;
      let info :=
        {| header := {| Algorithm := "RS256"; Typ := "JWT"; KeyID := "" |};
           payload := {| customToken.Iss := iss;
                         customToken.Sub := iss;
                         customToken.Aud := firebaseAudience;
                         customToken.UID := uid;
                         customToken.Iat := now;
                         customToken.Exp := add64 now tokenExpSeconds;
                         customToken.Claims := devClaims |} |} in
      lift (jwtInfo_Token info (signer_ c)).

(** auth.go, lines 145-147. *)
Definition CustomToken (c : Client) (uid : string) : M string :=
  CustomTokenWithClaims c uid ∅.

(** auth.go, lines 209-279. *)
Definition VerifyIDToken (c : Client) (idToken : string) : M Token :=
  if bool_decide (projectID c = "") then fail ErrProjectIDNotAvailable
  else if bool_decide (idToken = "") then fail ErrEmptyIDToken
  else
    match verifyToken idToken (ks c) with
    | Some err => fail err
    | None =>
        let segments := Split idToken "." in
        s0 ← index segments 0;
        header ← lift (decode UnmarshalHeader s0);
        s1 ← index segments 1;
        payload ← lift (decode UnmarshalToken s1);
        claims ← lift (decode UnmarshalClaims s1);
        let claims := foldl (fun m r => delete r m) claims standardClaims in
        let payload := set_Claims payload claims in
        let issuer := issuerPrefix +:+ projectID c in
        if bool_decide (KeyID header = "") then
          if bool_decide (Audience payload = firebaseAudience)
          then fail ErrCustomToken
          else fail ErrNoKeyID
        else if bool_decide (Algorithm header ≠ "RS256") then
          fail (ErrInvalidAlgorithm (Algorithm header))
        else if bool_decide (Audience payload ≠ projectID c) then
          fail (ErrInvalidAudience (projectID c) (Audience payload))
        else if bool_decide (Issuer payload ≠ issuer) then
          fail (ErrInvalidIssuer issuer (Issuer payload))
        else
          t_iat ← clk_Now_Unix;
          if IssuedAt payload >? t_iat then
            fail (ErrIssuedInFuture (IssuedAt payload))
          else
            t_exp ← clk_Now_Unix;
            if Expires payload <? t_exp then
              fail (ErrExpired (Expires payload))
            else if bool_decide (Subject payload = "") then
              fail ErrEmptySubject
            else if (128 <? String.length (Subject payload))%nat then
              fail ErrSubjectTooLong
            else mret (set_UID payload (Subject payload))
    end.

(** auth.go, lines 285-300. *)
Definition VerifyIDTokenAndCheckRevoked (c : Client) (idToken : string)
    : M Token :=
  p ← VerifyIDToken c idToken;
  user ← lift (GetUser c (UID p));
  if mul64 (IssuedAt p) 1000 <? TokensValidAfterMillis user
  then fail ErrIDTokenRevoked
  else mret p.

End Auth.

(** ** The rest of auth.go: [Token.decodeFrom] and [NewClient] *)

Definition idTokenCertURL : string :=
  "https://www.googleapis.com/robot/v1/metadata/x509/securetoken@system.gserviceaccount.com".

(** The zero value of [Token]. *)
Definition zeroToken : Token :=
  {| Issuer := ""; Audience := ""; Expires := 0; IssuedAt := 0;
     Subject := ""; UID := ""; Claims := ∅ |}.

(** [json.Unmarshal(b, t)] for a [*Token] that already holds values: the
    target after the call, and whether the call returned no error. *)
Class TokenTarget : Type := {
  UnmarshalInto : Token -> string -> Token * bool }.

Section DecodeFrom.
Context {enc : Encoding} {tgt : TokenTarget}.

(** auth.go, lines 60-77: the error ([None] is [nil]) and the receiver
    after the call. The second [decode] is written out, since its target is
    the receiver. *)
Definition decodeFrom (t : Token) (s : string) : option error * Token :=
  match decode UnmarshalClaims s with
  | Err err => (Some err, t)
  | Ok claims =>
      match DecodeString s with
      | None => (Some ErrBase64, t)
      | Some b =>
          let (t', ok) := UnmarshalInto t b in
          if ok then
            (None,
             set_Claims t'
               (foldl (fun m r => delete r m) claims standardClaims))
          else (Some ErrJSON, t')
      end
  end.

(** Unmarshalling into the zero [Token] is unmarshalling a [Token]. *)
Definition into_zero_agrees : Prop :=
  forall b t, UnmarshalInto zeroToken b = (t, true) <-> UnmarshalToken b = Some t.

End DecodeFrom.

(** [google.Credentials], as far as [NewClient] reads it. *)
Record Credentials : Type := {
  JSON : string }.

Section Construction.
(** The option and the HTTP client types of the transport package. *)
Variables ClientOption HTTPClient : Type.

(** [internal.AuthConfig], with the fields [NewClient] reads; a [nil]
    [Creds] is [None]. *)
Record AuthConfig : Type := {
  Creds : option Credentials;
  Opts : list ClientOption;
  ProjectID : string;
  Version : string }.

(** What [NewClient] calls outside auth.go: [json.Unmarshal] into the
    service-account structure (its [private_key] and [client_email]), the
    two signer constructors and the key-source constructor of crypto.go,
    [transport.NewHTTPClient] and [identitytoolkit.New]. Nothing is assumed
    of them. *)
Record Platform : Type := {
  UnmarshalServiceAccount : string -> reply (string * string);
  newServiceAccountSigner : string -> string -> reply signer;
  newCryptoSigner : signer;
  NewHTTPClient : list ClientOption -> reply HTTPClient;
  identitytoolkit_New : HTTPClient -> reply (string -> reply UserRecord);
  newHTTPKeySource : string -> HTTPClient -> keySource }.

(** The first part of [NewClient] (auth.go, lines 101-117): the signer made
    from the credentials, [Got None] being the [nil] signer. *)
Definition credentialSigner (pf : Platform) (c : AuthConfig)
    : reply (option signer) :=
  match Creds c with
  | Some creds =>
      if (0 <? String.length (JSON creds))%nat then
        match UnmarshalServiceAccount pf (JSON creds) with
        | Failed msg => Failed msg
        | Got (PrivateKey, ClientEmail) =>
            if bool_decide (PrivateKey ≠ "") && bool_decide (ClientEmail ≠ "")
            then
              match newServiceAccountSigner pf PrivateKey ClientEmail with
              | Failed msg => Failed msg
              | Got s => Got (Some s)
              end
            else Got None
        end
      else Got None
  | None => Got None
  end.

(** auth.go, lines 100-139. Every error is the collaborator's, returned as
    it is. *)
Definition NewClient (pf : Platform) (c : AuthConfig) : reply Client :=
  match credentialSigner pf c with
  | Failed msg => Failed msg
  | Got signer =>
      let signer :=
        match signer with
        | Some s => s
        | None => newCryptoSigner pf
        end in
      match NewHTTPClient pf (Opts c) with
      | Failed msg => Failed msg
      | Got hc =>
          match identitytoolkit_New pf hc with
          | Failed msg => Failed msg
          | Got is' =>
              Got {| is_ := is';
                     ks := newHTTPKeySource pf idTokenCertURL hc;
                     projectID := ProjectID c;
                     signer_ := signer;
                     version := "Go/Admin/" +:+ Version c |}
          end
      end
  end.

End Construction.

Arguments Creds {ClientOption} _.
Arguments Opts {ClientOption} _.
Arguments ProjectID {ClientOption} _.
Arguments Version {ClientOption} _.
Arguments UnmarshalServiceAccount {ClientOption HTTPClient} _ _.
Arguments newServiceAccountSigner {ClientOption HTTPClient} _ _ _.
Arguments newCryptoSigner {ClientOption HTTPClient} _.
Arguments NewHTTPClient {ClientOption HTTPClient} _ _.
Arguments identitytoolkit_New {ClientOption HTTPClient} _ _.
Arguments newHTTPKeySource {ClientOption HTTPClient} _ _ _.
Arguments credentialSigner {ClientOption HTTPClient} pf c.
Arguments NewClient {ClientOption HTTPClient} pf c.

(** ** A reference instance of the collaborators

    An executable base64url codec, a JSON printer and reader for compact
    JSON (integers, no floats; the escapes of the quote and the backslash),
    and a keyed checksum standing in for RSA signatures. The operations can
    be run on it. *)

Module Reference.

(** *** base64url without padding (RFC 4648, section 5) *)

Definition b64_char (v : N) : ascii :=
  if (v <? 26)%N then ascii_of_N (65 + v)
  else if (v <? 52)%N then ascii_of_N (71 + v)
  else if (v <? 62)%N then ascii_of_N (v - 4)
  else if (v =? 62)%N then "-"%char
  else "_"%char.

Definition b64_value (c : ascii) : option N :=
  let n := N_of_ascii c in
  if (65 <=? n)%N && (n <=? 90)%N then Some (n - 65)%N
  else if (97 <=? n)%N && (n <=? 122)%N then Some (n - 71)%N
  else if (48 <=? n)%N && (n <=? 57)%N then Some (n + 4)%N
  else if (n =? 45)%N then Some 62%N
  else if (n =? 95)%N then Some 63%N
  else None.

(** Three bytes make four sextets; one or two trailing bytes make two or
    three. *)
Fixpoint sextets (l : list N) : list N :=
  match l with
  | a :: b :: c :: rest =>
      (a / 4 :: (a mod 4) * 16 + b / 16 :: (b mod 16) * 4 + c / 64
         :: c mod 64 :: sextets rest)%N
  | [a; b] => [a / 4; (a mod 4) * 16 + b / 16; (b mod 16) * 4]%N
  | [a] => [a / 4; (a mod 4) * 16]%N
  | [] => []
  end.

Fixpoint octets (l : list N) : option (list N) :=
  match l with
  | a :: b :: c :: d :: rest =>
      match octets rest with
      | Some r =>
          Some (a * 4 + b / 16 :: (b mod 16) * 16 + c / 4
                  :: (c mod 4) * 64 + d :: r)%N
      | None => None
      end
  | [a; b; c] => Some [a * 4 + b / 16; (b mod 16) * 16 + c / 4]%N
  | [a; b] => Some [a * 4 + b / 16]%N
  | [_] => None
  | [] => Some []
  end.

Fixpoint all_some {A} (l : list (option A)) : option (list A) :=
  match l with
  | [] => Some []
  | Some a :: r => match all_some r with Some r' => Some (a :: r') | None => None end
  | None :: _ => None
  end.

Definition b64url_encode (b : string) : string :=
  string_of_list_ascii
    (map b64_char (sextets (map N_of_ascii (list_ascii_of_string b)))).

Definition b64url_decode (s : string) : option string :=
  match all_some (map b64_value (list_ascii_of_string s)) with
  | None => None
  | Some vs =>
      match octets vs with
      | None => None
      | Some bs => Some (string_of_list_ascii (map ascii_of_N bs))
      end
  end.

(** *** JSON text *)

Definition dquote : ascii := "034"%char.
Definition backslash : ascii := "092"%char.

Fixpoint escape (s : string) : string :=
  match s with
  | EmptyString => EmptyString
  | String a s' =>
      if Ascii.eqb a dquote || Ascii.eqb a backslash
      then String backslash (String a (escape s'))
      else String a (escape s')
  end.

Definition quote (s : string) : string :=
  String dquote (escape s +:+ String dquote EmptyString).

Fixpoint print_json (j : json) : string :=
  match j with
  | JNull => "null"
  | JBool true => "true"
  | JBool false => "false"
  | JNum n => pretty n
  | JStr s => quote s
  | JArr items =>
      "[" +:+
      (fix go (l : list json) : string :=
         match l with
         | [] => ""
         | x :: r =>
             match r with
             | [] => print_json x
             | _ => print_json x +:+ "," +:+ go r
             end
         end) items +:+ "]"
  | JObj fields =>
      "{" +:+
      (fix go (l : list (string * json)) : string :=
         match l with
         | [] => ""
         | (k, v) :: r =>
             match r with
             | [] => quote k +:+ ":" +:+ print_json v
             | _ => quote k +:+ ":" +:+ print_json v +:+ "," +:+ go r
             end
         end) fields +:+ "}"
  end.

(** The text of a string after its opening quote, up to the closing one. *)
Fixpoint read_string (s : list ascii) : option (string * list ascii) :=
  match s with
  | [] => None
  | a :: r =>
      if Ascii.eqb a dquote then Some (EmptyString, r)
      else if Ascii.eqb a backslash then
        match r with
        | b :: r' =>
            if Ascii.eqb b dquote || Ascii.eqb b backslash then
              match read_string r' with
              | Some (t, rest) => Some (String b t, rest)
              | None => None
              end
            else None
        | [] => None
        end
      else
        match read_string r with
        | Some (t, rest) => Some (String a t, rest)
        | None => None
        end
  end.

Definition digit (a : ascii) : option Z :=
  let n := N_of_ascii a in
  if (48 <=? n)%N && (n <=? 57)%N then Some (Z.of_N n - 48) else None.

Fixpoint read_digits (acc : Z) (s : list ascii) : Z * list ascii :=
  match s with
  | a :: r =>
      match digit a with
      | Some d => read_digits (10 * acc + d) r
      | None => (acc, s)
      end
  | [] => (acc, s)
  end.

Definition read_number (s : list ascii) : option (Z * list ascii) :=
  match s with
  | a :: r =>
      if Ascii.eqb a "-"%char then
        match r with
        | b :: _ =>
            match digit b with
            | Some _ => let (n, rest) := read_digits 0 r in Some (- n, rest)
            | None => None
            end
        | [] => None
        end
      else
        match digit a with
        | Some _ => Some (read_digits 0 s)
        | None => None
        end
  | [] => None
  end.

(** The items of an array after its opening bracket, read with [rv]. *)
Fixpoint read_items (rv : list ascii -> option (json * list ascii))
    (fuel : nat) (s : list ascii) : option (list json * list ascii) :=
  match fuel with
  | O => None
  | S fuel' =>
      match rv s with
      | Some (v, c :: r) =>
          if Ascii.eqb c ","%char then
            match read_items rv fuel' r with
            | Some (vs, rest) => Some (v :: vs, rest)
            | None => None
            end
          else if Ascii.eqb c "]"%char then Some ([v], r)
          else None
      | _ => None
      end
  end.

(** The fields of an object after its opening brace, read with [rv]. *)
Fixpoint read_fields (rv : list ascii -> option (json * list ascii))
    (fuel : nat) (s : list ascii)
    : option (list (string * json) * list ascii) :=
  match fuel with
  | O => None
  | S fuel' =>
      match s with
      | q :: r =>
          if Ascii.eqb q dquote then
            match read_string r with
            | Some (k, c :: r1) =>
                if Ascii.eqb c ":"%char then
                  match rv r1 with
                  | Some (v, d :: r2) =>
                      if Ascii.eqb d ","%char then
                        match read_fields rv fuel' r2 with
                        | Some (fs, rest) => Some ((k, v) :: fs, rest)
                        | None => None
                        end
                      else if Ascii.eqb d "}"%char then Some ([(k, v)], r2)
                      else None
                  | _ => None
                  end
                else None
            | _ => None
            end
          else None
      | [] => None
      end
  end.

Fixpoint read_value (fuel : nat) (s : list ascii)
    : option (json * list ascii) :=
  match fuel with
  | O => None
  | S fuel' =>
      match s with
      | [] => None
      | a :: r =>
          if Ascii.eqb a dquote then
            match read_string r with
            | Some (t, rest) => Some (JStr t, rest)
            | None => None
            end
          else if Ascii.eqb a "["%char then
            match r with
            | b :: r' =>
                if Ascii.eqb b "]"%char then Some (JArr [], r')
                else
                  match read_items (read_value fuel') (length r) r with
                  | Some (vs, rest) => Some (JArr vs, rest)
                  | None => None
                  end
            | [] => None
            end
          else if Ascii.eqb a "{"%char then
            match r with
            | b :: r' =>
                if Ascii.eqb b "}"%char then Some (JObj [], r')
                else
                  match read_fields (read_value fuel') (length r) r with
                  | Some (fs, rest) => Some (JObj fs, rest)
                  | None => None
                  end
            | [] => None
            end
          else
            match s with
            | "n"%char :: "u"%char :: "l"%char :: "l"%char :: rest =>
                Some (JNull, rest)
            | "t"%char :: "r"%char :: "u"%char :: "e"%char :: rest =>
                Some (JBool true, rest)
            | "f"%char :: "a"%char :: "l"%char :: "s"%char :: "e"%char
                :: rest => Some (JBool false, rest)
            | _ =>
                match read_number s with
                | Some (n, rest) => Some (JNum n, rest)
                | None => None
                end
            end
      end
  end.

(** A whole text is one value with nothing after it. *)
Definition parse_json (b : string) : option json :=
  let s := list_ascii_of_string b in
  match read_value (S (length s)) s with
  | Some (v, []) => Some v
  | _ => None
  end.

(** *** json.Marshal and json.Unmarshal at the types of the package *)

(** Modelled from the spec: the field names of [jwtHeader] and
    [customToken] are declared in jwt.go, which is not among the sources;
    section 6 gives the header [alg], [typ] (and [kid] when there is one)
    and the payload fields [iss, sub, aud, uid, iat, exp] plus the flattened
    custom claims. *)
Definition header_json (h : jwtHeader) : json :=
  JObj ([("alg", JStr (Algorithm h)); ("typ", JStr (Typ h))]
        ++ if bool_decide (KeyID h = "") then [] else [("kid", JStr (KeyID h))]).

Definition payload_json (p : customToken.t) : json :=
  JObj ([("iss", JStr (customToken.Iss p)); ("sub", JStr (customToken.Sub p));
         ("aud", JStr (customToken.Aud p)); ("uid", JStr (customToken.UID p));
         ("iat", JNum (customToken.Iat p)); ("exp", JNum (customToken.Exp p))]
        ++ map_to_list (customToken.Claims p)).

(** The value of the last field named [k]. *)
Fixpoint field (k : string) (fields : list (string * json)) : option json :=
  match fields with
  | [] => None
  | (k', v) :: r =>
      match field k r with
      | Some w => Some w
      | None => if bool_decide (k' = k) then Some v else None
      end
  end.

(** A string field: absent or null leaves the zero value. *)
Definition string_field (k : string) (fields : list (string * json))
    : option string :=
  match field k fields with
  | None | Some JNull => Some ""
  | Some (JStr s) => Some s
  | Some _ => None
  end.

(** An int64 field. *)
Definition int64_field (k : string) (fields : list (string * json))
    : option Z :=
  match field k fields with
  | None | Some JNull => Some 0
  | Some (JNum n) =>
      if (min_int64 <=? n) && (n <=? max_int64) then Some n else None
  | Some _ => None
  end.

Definition unmarshal_header (b : string) : option jwtHeader :=
  match parse_json b with
  | Some (JObj fs) =>
      alg ← string_field "alg" fs;
      typ ← string_field "typ" fs;
      kid ← string_field "kid" fs;
      Some {| Algorithm := alg; Typ := typ; KeyID := kid |}
  | Some JNull => Some {| Algorithm := ""; Typ := ""; KeyID := "" |}
  | _ => None
  end.

Definition unmarshal_token (b : string) : option Token :=
  match parse_json b with
  | Some (JObj fs) =>
      iss ← string_field "iss" fs;
      aud ← string_field "aud" fs;
      exp ← int64_field "exp" fs;
      iat ← int64_field "iat" fs;
      sub ← string_field "sub" fs;
      uid ← string_field "uid" fs;
      Some {| Issuer := iss; Audience := aud; Expires := exp; IssuedAt := iat;
              Subject := sub; UID := uid; Claims := ∅ |}
  | Some JNull =>
      Some {| Issuer := ""; Audience := ""; Expires := 0; IssuedAt := 0;
              Subject := ""; UID := ""; Claims := ∅ |}
  | _ => None
  end.

Definition unmarshal_claims (b : string) : option (gmap string json) :=
  match parse_json b with
  | Some (JObj fs) => Some (list_to_map (reverse fs))
  | Some JNull => Some ∅
  | _ => None
  end.

Definition encoding : Encoding := {|
  EncodeToString := b64url_encode;
  DecodeString := b64url_decode;
  MarshalHeader := fun h => Some (print_json (header_json h));
  MarshalPayload := fun p => Some (print_json (payload_json p));
  UnmarshalHeader := unmarshal_header;
  UnmarshalToken := unmarshal_token;
  UnmarshalClaims := unmarshal_claims |}.

(** *** Signatures: a keyed checksum in the place of RSA *)

Definition checksum (key : N) (data : string) : N :=
  fold_left (fun acc a => (acc * 257 + N_of_ascii a + key) mod 4294967291)%N
    (list_ascii_of_string data) key.

Definition tag (key : N) (data : string) : string :=
  let h := checksum key data in
  string_of_list_ascii
    (map ascii_of_N
       [(h / 16777216) mod 256; (h / 65536) mod 256; (h / 256) mod 256;
        h mod 256]%N).

Definition keyed_signer (email : string) (key : N) : signer :=
  {| Email := Got email; Sign := fun b => Got (tag key b) |}.

(** A delegated signer whose signing authority cannot be reached. *)
Definition unreachable_signer : signer :=
  {| Email := Failed "signing authority unreachable";
     Sign := fun _ => Failed "signing authority unreachable" |}.

Definition keyed_public (key : N) : publicKey :=
  {| pk_verify := fun alg data sig =>
       if bool_decide (alg = "RS256") then
         if bool_decide (sig = tag key data) then Verified else BadSignature
       else BadAlgorithm |}.

(** *** Clients *)

Definition service_key : N := 2222.
Definition issuer_key : N := 1111.
Definition service_account : string :=
  "firebase-adminsdk@demo-project.iam.gserviceaccount.com".

(** The keys of the token issuer, under the key id [kid-1]. *)
Definition issuer_keys : keySource :=
  {| GetKey := fun kid =>
       if bool_decide (kid = "kid-1") then KeyFound (keyed_public issuer_key)
       else KeyNotFound |}.

(** A key source that answers every key id with the key of the service
    account, as a test set-up sharing one key pair does. *)
Definition shared_keys : keySource :=
  {| GetKey := fun _ => KeyFound (keyed_public service_key) |}.

Definition users (uid : string) : reply UserRecord :=
  if bool_decide (uid = "alice")
  then Got {| UserID := "alice"; TokensValidAfterMillis := 1700000000000 |}
  else Failed "user not found".

Definition client : Client :=
  {| is_ := users; ks := issuer_keys; projectID := "demo-project";
     signer_ := keyed_signer service_account service_key;
     version := "Go/Admin/test" |}.

Definition shared_client : Client :=
  {| is_ := users; ks := shared_keys; projectID := "demo-project";
     signer_ := keyed_signer service_account service_key;
     version := "Go/Admin/test" |}.

Definition unreachable_client : Client :=
  {| is_ := users; ks := issuer_keys; projectID := "demo-project";
     signer_ := unreachable_signer; version := "Go/Admin/test" |}.

Definition unconfigured_client : Client :=
  {| is_ := users; ks := issuer_keys; projectID := "";
     signer_ := keyed_signer service_account service_key;
     version := "Go/Admin/test" |}.

(** A clock that always reads [t]. *)
Definition fixed_clock (t : Z) : clock := fun _ => t.

(** A token with the given header and payload, signed with [key]. *)
Definition signed_token (h p : json) (key : N) : string :=
  let data :=
    b64url_encode (print_json h) +:+ "." +:+ b64url_encode (print_json p) in
  data +:+ "." +:+ b64url_encode (tag key data).

(** An ID token of the issuer for [demo-project]. *)
Definition id_token (sub : string) (iat exp : Z)
    (extra : list (string * json)) : string :=
  signed_token
    (JObj [("alg", JStr "RS256"); ("typ", JStr "JWT"); ("kid", JStr "kid-1")])
    (JObj ([("iss", JStr "https://securetoken.google.com/demo-project");
            ("aud", JStr "demo-project"); ("exp", JNum exp);
            ("iat", JNum iat); ("sub", JStr sub)] ++ extra))
    issuer_key.

(** The last byte of a string replaced by another one. *)
Fixpoint flip_last (s : string) : string :=
  match s with
  | EmptyString => EmptyString
  | String a EmptyString =>
      String (if Ascii.eqb a "A" then "B" else "A")%char EmptyString
  | String a s' => String a (flip_last s')
  end.

(** The instants of the examples. *)
Definition t0 : Z := 1700000000.

(** An ID token of alice, issued at [t0] for one hour, with two further
    claims. *)
Definition alice_token : string :=
  id_token "alice" t0 (t0 + 3600)
    [("admin", JBool true); ("firebase", JObj [])].

(** The same token, issued one second earlier. *)
Definition alice_early_token : string :=
  id_token "alice" (t0 - 1) (t0 + 3599) [("admin", JBool true)].

(** An ID token with an audience of another project and an expiry in the
    past: the checks (c) and (f) both fail on it. *)
Definition stale_foreign_token : string :=
  signed_token
    (JObj [("alg", JStr "RS256"); ("typ", JStr "JWT"); ("kid", JStr "kid-1")])
    (JObj [("iss", JStr "https://securetoken.google.com/demo-project");
           ("aud", JStr "other-project"); ("exp", JNum (t0 - 10));
           ("iat", JNum (t0 - 3610)); ("sub", JStr "alice")])
    issuer_key.

(** The claim map of the minting examples. *)
Definition admin_claims : gmap string json := {[ "admin" := JBool true ]}.

(** The custom token that [shared_client] mints for alice at [t0]. *)
Definition alice_custom_token : string :=
  Eval vm_compute in
    match (CustomTokenWithClaims (enc := encoding) shared_client "alice"
             admin_claims (fixed_clock t0) 0%nat).1 with
    | Ok tok => tok
    | Err _ => ""
    end.

(** The clock of the examples always reads [t0]. *)
Definition clk : clock := fixed_clock t0.

(** The header of alice's ID token, and its payload as the verifier decodes
    it. *)
Definition alice_header : jwtHeader :=
  {| Algorithm := "RS256"; Typ := "JWT"; KeyID := "kid-1" |}.
Definition alice_payload : Token :=
  {| Issuer := "https://securetoken.google.com/demo-project";
     Audience := "demo-project"; Expires := t0 + 3600;
     IssuedAt := t0; Subject := "alice"; UID := "";
     Claims := {[ "admin" := JBool true; "firebase" := JObj [] ]} |}.

(** The payloads of the other example tokens, as the verifier decodes
    them. *)
Definition alice_early_payload : Token :=
  {| Issuer := "https://securetoken.google.com/demo-project";
     Audience := "demo-project"; Expires := t0 + 3599;
     IssuedAt := t0 - 1; Subject := "alice"; UID := "";
     Claims := {[ "admin" := JBool true ]} |}.
Definition stale_foreign_payload : Token :=
  {| Issuer := "https://securetoken.google.com/demo-project";
     Audience := "other-project"; Expires := t0 - 10;
     IssuedAt := t0 - 3610; Subject := "alice"; UID := "";
     Claims := ∅ |}.
Definition alice_custom_payload : Token :=
  {| Issuer := service_account; Audience := firebaseAudience;
     Expires := t0 + 3600; IssuedAt := t0; Subject := service_account;
     UID := "alice"; Claims := admin_claims |}.

(** A claim map with one reserved key, and one with two. *)
Definition aud_claims : gmap string json := {[ "aud" := JStr "x" ]}.
Definition sub_aud_claims : gmap string json :=
  {[ "sub" := JStr "1234"; "aud" := JStr "foo"; "level" := JNum 3 ]}.

(** An ID token whose header declares an algorithm that the key of the
    issuer does not verify. *)
Definition hs256_token : string :=
  signed_token
    (JObj [("alg", JStr "HS256"); ("typ", JStr "JWT"); ("kid", JStr "kid-1")])
    (JObj [("iss", JStr "https://securetoken.google.com/demo-project");
           ("aud", JStr "demo-project"); ("exp", JNum (t0 + 3600));
           ("iat", JNum t0); ("sub", JStr "alice")])
    issuer_key.

(** A clock that advances by one second at every reading, from [t]. *)
Definition ticking_clock (t : Z) : clock := fun k => t + Z.of_nat k.

(** *** json.Unmarshal into a [Token] that holds values *)

(** A string field into a target that holds [old]: absent or null leaves
    it; a value of another type is skipped and is an error. *)
Definition string_into (k : string) (fields : list (string * json))
    (old : string) : string * bool :=
  match field k fields with
  | None | Some JNull => (old, true)
  | Some (JStr s) => (s, true)
  | Some _ => (old, false)
  end.

Definition int64_into (k : string) (fields : list (string * json))
    (old : Z) : Z * bool :=
  match field k fields with
  | None | Some JNull => (old, true)
  | Some (JNum n) =>
      if (min_int64 <=? n) && (n <=? max_int64) then (n, true)
      else (old, false)
  | Some _ => (old, false)
  end.

Definition unmarshal_token_into (t : Token) (b : string) : Token * bool :=
  match parse_json b with
  | Some (JObj fs) =>
      let '(iss, ok1) := string_into "iss" fs (Issuer t) in
      let '(aud, ok2) := string_into "aud" fs (Audience t) in
      let '(exp, ok3) := int64_into "exp" fs (Expires t) in
      let '(iat, ok4) := int64_into "iat" fs (IssuedAt t) in
      let '(sub, ok5) := string_into "sub" fs (Subject t) in
      let '(uid, ok6) := string_into "uid" fs (UID t) in
      ({| Issuer := iss; Audience := aud; Expires := exp; IssuedAt := iat;
          Subject := sub; UID := uid; Claims := Claims t |},
       ok1 && ok2 && ok3 && ok4 && ok5 && ok6)
  | Some JNull => (t, true)
  | _ => (t, false)
  end.

Definition target : TokenTarget :=
  {| UnmarshalInto := unmarshal_token_into |}.

(** A token held before a second decoding, and the payload segment of
    alice's ID token. *)
Definition stale_token : Token :=
  {| Issuer := "old"; Audience := "old"; Expires := 1; IssuedAt := 1;
     Subject := "old"; UID := "old";
     Claims := {[ "role" := JStr "guest"; "sub" := JStr "old" ]} |}.
Definition alice_segment : string := nth 1 (Split alice_token ".") "".

(** *** The construction of a client *)

Definition unmarshal_service_account (b : string) : reply (string * string) :=
  match parse_json b with
  | Some (JObj fs) =>
      match string_field "private_key" fs, string_field "client_email" fs with
      | Some pk, Some em => Got (pk, em)
      | _, _ => Failed "json: cannot unmarshal into Go struct field"
      end
  | Some JNull => Got ("", "")
  | _ => Failed "json: invalid character"
  end.

(** The signer of the default service identity. *)
Definition ambient_signer : signer :=
  keyed_signer "demo-project@appspot.gserviceaccount.com" 3333.

Definition platform : Platform unit string :=
  {| UnmarshalServiceAccount := unmarshal_service_account;
     newServiceAccountSigner := fun pk em =>
       if bool_decide (pk = "not a key")
       then Failed "failed to parse the private key"
       else Got (keyed_signer em service_key);
     newCryptoSigner := ambient_signer;
     NewHTTPClient := fun _ => Got "http client";
     identitytoolkit_New := fun _ => Got users;
     newHTTPKeySource := fun _ _ => issuer_keys |}.

(** Configurations: a service account, credentials that are not JSON, a
    service account whose key cannot be parsed, and no credentials and no
    project id. *)
Definition account_json : string :=
  print_json (JObj [("type", JStr "service_account");
                    ("private_key", JStr "a key");
                    ("client_email", JStr service_account)]).
Definition account_config : AuthConfig unit :=
  {| Creds := Some {| JSON := account_json |}; Opts := [];
     ProjectID := "demo-project"; Version := "test" |}.
Definition garbled_config : AuthConfig unit :=
  {| Creds := Some {| JSON := "{not json" |}; Opts := [];
     ProjectID := "demo-project"; Version := "test" |}.
Definition bad_key_config : AuthConfig unit :=
  {| Creds := Some {| JSON :=
       print_json (JObj [("private_key", JStr "not a key");
                         ("client_email", JStr service_account)]) |};
     Opts := []; ProjectID := "demo-project"; Version := "test" |}.
Definition bare_config : AuthConfig unit :=
  {| Creds := None; Opts := []; ProjectID := ""; Version := "test" |}.

(** The client that [NewClient] makes of [bare_config]. *)
Definition bare_client : Client :=
  {| is_ := users; ks := issuer_keys; projectID := "";
     signer_ := ambient_signer; version := "Go/Admin/test" |}.
(** The client that [NewClient] makes of [account_config]. *)
Definition account_client : Client :=
  {| is_ := users; ks := issuer_keys; projectID := "demo-project";
     signer_ := keyed_signer service_account service_key;
     version := "Go/Admin/test" |}.

(** [stale_token] after [decodeFrom] of [alice_segment]. *)
Definition redecoded_token : Token :=
  {| Issuer := "https://securetoken.google.com/demo-project";
     Audience := "demo-project"; Expires := t0 + 3600; IssuedAt := t0;
     Subject := "alice"; UID := "old";
     Claims := {[ "admin" := JBool true; "firebase" := JObj [] ]} |}.

End Reference.

(** ** The guard chain of the verifier, as the specification words it

    Section 4.5, step 5, and section 9: an ordered list of (predicate,
    error) pairs evaluated in sequence and short-circuiting at the first
    match. [t_iat] and [t_exp] are the clock readings taken by the checks
    of the issued-at and of the expiry. *)
Definition semantic_checks (project : string) (h : jwtHeader) (p : Token)
    (t_iat t_exp : Z) : list (bool * error) :=
  [ (bool_decide (KeyID h = ""),
     if bool_decide (Audience p = firebaseAudience)
     then ErrCustomToken else ErrNoKeyID);
    (bool_decide (Algorithm h ≠ "RS256"), ErrInvalidAlgorithm (Algorithm h));
    (bool_decide (Audience p ≠ project),
     ErrInvalidAudience project (Audience p));
    (bool_decide (Issuer p ≠ issuerPrefix +:+ project),
     ErrInvalidIssuer (issuerPrefix +:+ project) (Issuer p));
    (IssuedAt p >? t_iat, ErrIssuedInFuture (IssuedAt p));
    (Expires p <? t_exp, ErrExpired (Expires p));
    (bool_decide (Subject p = ""), ErrEmptySubject);
    ((128 <? String.length (Subject p))%nat, ErrSubjectTooLong) ].

(** The error of the first pair whose predicate holds. *)
Fixpoint first_failing (checks : list (bool * error)) : option error :=
  match checks with
  | [] => None
  | (failed, e) :: rest => if failed then Some e else first_failing rest
  end.

Section Stages.
Context {enc : Encoding}.

(** The header of every minted token (auth.go, line 175). *)
Definition custom_header : jwtHeader :=
  {| Algorithm := "RS256"; Typ := "JWT"; KeyID := "" |}.

(** The codec gives back the header [h] it encoded, and the encoded segment
    holds no dot. *)
Definition header_round_trips (h : jwtHeader) : Prop :=
  forall b, MarshalHeader h = Some b ->
    occurs "." (EncodeToString b) = false /\
    decode UnmarshalHeader (EncodeToString b) = Ok h.

(** [VerifyIDToken c idToken] gets as far as the semantic checks, with the
    decoded [header] and [payload]: the project id is configured, the token
    is not empty, [verifyToken] accepts it, and its first two segments
    decode (auth.go, lines 210-240). *)
Definition reaches_checks (c : Client) (idToken : string)
    (header : jwtHeader) (payload : Token) : Prop :=
  projectID c ≠ "" /\ idToken ≠ "" /\
  verifyToken idToken (ks c) = None /\
  exists s0 s1 p0 claims,
    Split idToken "." !! 0%nat = Some s0 /\
    Split idToken "." !! 1%nat = Some s1 /\
    decode UnmarshalHeader s0 = Ok header /\
    decode UnmarshalToken s1 = Ok p0 /\
    decode UnmarshalClaims s1 = Ok claims /\
    payload =
      set_Claims p0 (foldl (fun m r => delete r m) claims standardClaims).

(** The same stage as a function: what the lines 210-240 of auth.go leave
    in [header] and [payload] when they return no error. *)
Definition decoded (c : Client) (idToken : string)
    : option (jwtHeader * Token) :=
  if bool_decide (projectID c = "") then None
  else if bool_decide (idToken = "") then None
  else
    match verifyToken idToken (ks c) with
    | Some _ => None
    | None =>
        match Split idToken "." !! 0%nat, Split idToken "." !! 1%nat with
        | Some s0, Some s1 =>
            match decode UnmarshalHeader s0, decode UnmarshalToken s1,
                  decode UnmarshalClaims s1 with
            | Ok header, Ok p0, Ok claims =>
                Some (header,
                      set_Claims p0
                        (foldl (fun m r => delete r m) claims standardClaims))
            | _, _, _ => None
            end
        | _, _ => None
        end
    end.

(** The header and the audience that a token string carries. *)
Definition header_of (token : string) : result jwtHeader :=
  decode UnmarshalHeader (nth 0 (Split token ".") "").
Definition audience_of (token : string) : result string :=
  match decode UnmarshalToken (nth 1 (Split token ".") "") with
  | Ok p => Ok (Audience p)
  | Err e => Err e
  end.

End Stages.

(** * Properties *)

(** ** Machine integers *)

Lemma wrap64_in_range z : in_int64 z -> wrap64 z = z.
Proof.
  unfold in_int64, wrap64, min_int64, max_int64. intros Hz.
  rewrite Z.mod_small by lia. lia.
Qed.

Lemma wrap64_range z : in_int64 (wrap64 z).
Proof.
  unfold in_int64, wrap64, min_int64, max_int64.
  pose proof (Z.mod_pos_bound (z + 2 ^ 63) (2 ^ 64)). lia.
Qed.

(** ** Strings *)

Lemma append_cons a s t : String a s +:+ t = String a (s +:+ t).
Proof. reflexivity. Qed.

Lemma append_nil t : "" +:+ t = t.
Proof. reflexivity. Qed.

Lemma Split_nonempty s sep : Split s sep <> [].
Proof.
  induction s as [|a s IH]; simpl; [done|].
  destruct (Ascii.eqb a sep); [done|]. by destruct (Split s sep).
Qed.

(** A dot-free prefix followed by a dot is the first piece. *)
Lemma Split_prefix a rest :
  occurs "." a = false ->
  Split (a +:+ "." +:+ rest) "." = a :: Split rest ".".
Proof.
  induction a as [|x a IH]; intros Hocc.
  - rewrite append_nil, append_cons. simpl. by rewrite append_nil.
  - simpl in Hocc. apply orb_false_iff in Hocc as [Hx Ha].
    rewrite append_cons. simpl. rewrite Hx. by rewrite IH.
Qed.

(** ** The reserved names among the keys of a claim map *)

Lemma reservedClaims_NoDup : NoDup reservedClaims.
Proof. apply (bool_decide_unpack _). by vm_compute. Qed.

Lemma elem_of_disallowed (devClaims : gmap string json) k :
  k ∈ disallowed devClaims <-> k ∈ reservedClaims /\ is_Some (devClaims !! k).
Proof. unfold disallowed. rewrite list_elem_of_filter. tauto. Qed.

Lemma disallowed_NoDup (devClaims : gmap string json) :
  NoDup (disallowed devClaims).
Proof. apply NoDup_filter, reservedClaims_NoDup. Qed.

Lemma disallowed_sublist (devClaims : gmap string json) :
  sublist (disallowed devClaims) reservedClaims.
Proof. apply sublist_filter. Qed.

Lemma disallowed_single (devClaims : gmap string json) k :
  k ∈ reservedClaims -> is_Some (devClaims !! k) ->
  (forall k', k' ∈ reservedClaims -> is_Some (devClaims !! k') -> k' = k) ->
  disallowed devClaims = [k].
Proof.
  intros Hk Hin Huniq.
  assert (Hmem : k ∈ disallowed devClaims) by by apply elem_of_disallowed.
  assert (Hall : forall x, x ∈ disallowed devClaims -> x = k).
  { intros x Hx. apply elem_of_disallowed in Hx as [? ?]. by apply Huniq. }
  pose proof (disallowed_NoDup devClaims) as Hnd.
  destruct (disallowed devClaims) as [|x [|y r]].
  - by apply not_elem_of_nil in Hmem.
  - f_equal. apply Hall. by left.
  - exfalso. apply NoDup_cons in Hnd as [Hx _]. apply Hx.
    rewrite (Hall x) by by left.
    rewrite <- (Hall y) at 1 by (right; by left). by left.
Qed.

Lemma disallowed_several (devClaims : gmap string json) k1 k2 :
  k1 ≠ k2 ->
  k1 ∈ reservedClaims -> is_Some (devClaims !! k1) ->
  k2 ∈ reservedClaims -> is_Some (devClaims !! k2) ->
  (1 < length (disallowed devClaims))%nat.
Proof.
  intros Hne H1 H1' H2 H2'.
  assert (M1 : k1 ∈ disallowed devClaims) by by apply elem_of_disallowed.
  assert (M2 : k2 ∈ disallowed devClaims) by by apply elem_of_disallowed.
  destruct (disallowed devClaims) as [|x [|y r]]; simpl; [| |lia].
  - by apply not_elem_of_nil in M1.
  - apply list_elem_of_singleton in M1, M2. congruence.
Qed.

Lemma disallowed_none (devClaims : gmap string json) :
  (forall k, k ∈ reservedClaims -> devClaims !! k = None) ->
  disallowed devClaims = [].
Proof.
  intros Hnone. destruct (disallowed devClaims) as [|x r] eqn:E; [done|].
  assert (Hx : x ∈ disallowed devClaims) by (rewrite E; by left).
  apply elem_of_disallowed in Hx as [Hr [v Hv]].
  rewrite (Hnone x Hr) in Hv. done.
Qed.

(** ** Minting *)

Ltac unfold_M :=
  unfold mbind, M_bind, mret, M_ret, lift, fail, clk_Now_Unix, index in *.

Section Minting.
Context {enc : Encoding}.

(** [CustomTokenWithClaims] path by path (auth.go, lines 152-186). *)
Lemma CustomTokenWithClaims_signer_fails c uid devClaims clk n msg :
  Email (signer_ c) = Failed msg ->
  CustomTokenWithClaims c uid devClaims clk n = (Err (ErrSigner msg), n).
Proof.
  intros HE. unfold CustomTokenWithClaims. unfold_M. by rewrite HE.
Qed.

Lemma CustomTokenWithClaims_invalid_uid c uid devClaims clk n iss :
  Email (signer_ c) = Got iss ->
  (String.length uid = 0 \/ 128 < String.length uid)%nat ->
  CustomTokenWithClaims c uid devClaims clk n = (Err ErrInvalidUID, n).
Proof.
  intros HE Huid. unfold CustomTokenWithClaims. unfold_M. rewrite HE. simpl.
  destruct Huid as [H0|H128].
  - apply Nat.eqb_eq in H0. by rewrite H0.
  - apply Nat.ltb_lt in H128. rewrite H128. by rewrite orb_true_r.
Qed.

Lemma CustomTokenWithClaims_valid_uid c uid devClaims clk n iss :
  Email (signer_ c) = Got iss ->
  (1 <= String.length uid <= 128)%nat ->
  CustomTokenWithClaims c uid devClaims clk n =
    match disallowed devClaims with
    | [] =>
        (jwtInfo_Token
           {| header := custom_header;
              payload := {| customToken.Iss := iss;
                            customToken.Sub := iss;
                            customToken.Aud := firebaseAudience;
                            customToken.UID := uid;
                            customToken.Iat := clk n;
                            customToken.Exp := add64 (clk n) tokenExpSeconds;
                            customToken.Claims := devClaims |} |}
           (signer_ c), S n)
    | [k] => (Err (ErrReservedClaim k), n)
    | ks => (Err (ErrReservedClaims (Join ks ", ")), n)
    end.
Proof.
  intros HE [Hlo Hhi]. unfold CustomTokenWithClaims. unfold_M.
  rewrite HE. simpl.
  replace (String.length uid =? 0)%nat with false
    by (symmetry; apply Nat.eqb_neq; lia).
  replace (128 <? String.length uid)%nat with false
    by (symmetry; apply Nat.ltb_ge; lia).
  simpl. by destruct (disallowed devClaims) as [|x [|y r]].
Qed.

(** [jwtInfo.Token] returns a token when both values can be marshalled and
    the signer signs. *)
Lemma jwtInfo_Token_succeeds info s hb pb sig :
  MarshalHeader (header info) = Some hb ->
  MarshalPayload (payload info) = Some pb ->
  Sign s (EncodeToString hb +:+ "." +:+ EncodeToString pb) = Got sig ->
  jwtInfo_Token info s
    = Ok ((EncodeToString hb +:+ "." +:+ EncodeToString pb)
            +:+ "." +:+ EncodeToString sig).
Proof.
  intros Hh Hp HS. unfold jwtInfo_Token, encode. by rewrite Hh, Hp, HS.
Qed.

(** With a signer that answers, a valid uid, no reserved key and values that
    can be marshalled, a token is returned and the clock is read once. *)
Lemma CustomTokenWithClaims_succeeds c uid devClaims clk n iss hb pb sig :
  Email (signer_ c) = Got iss ->
  (1 <= String.length uid <= 128)%nat ->
  (forall k, k ∈ reservedClaims -> devClaims !! k = None) ->
  MarshalHeader custom_header = Some hb ->
  MarshalPayload
    {| customToken.Iss := iss; customToken.Sub := iss;
       customToken.Aud := firebaseAudience; customToken.UID := uid;
       customToken.Iat := clk n;
       customToken.Exp := add64 (clk n) tokenExpSeconds;
       customToken.Claims := devClaims |} = Some pb ->
  Sign (signer_ c) (EncodeToString hb +:+ "." +:+ EncodeToString pb)
    = Got sig ->
  CustomTokenWithClaims c uid devClaims clk n
    = (Ok ((EncodeToString hb +:+ "." +:+ EncodeToString pb)
             +:+ "." +:+ EncodeToString sig), S n).
Proof.
  intros HE Hlen Hnone Hh Hp HS.
  rewrite (CustomTokenWithClaims_valid_uid _ _ _ _ _ iss) by done.
  rewrite (disallowed_none _ Hnone).
  by rewrite (jwtInfo_Token_succeeds _ _ hb pb sig).
Qed.

(** A token is returned only on the path that passes every check. *)
Lemma CustomTokenWithClaims_success c uid devClaims clk n tok n' :
  CustomTokenWithClaims c uid devClaims clk n = (Ok tok, n') ->
  exists iss,
    Email (signer_ c) = Got iss /\
    (1 <= String.length uid <= 128)%nat /\
    disallowed devClaims = [] /\
    n' = S n /\
    jwtInfo_Token
      {| header := custom_header;
         payload := {| customToken.Iss := iss;
                       customToken.Sub := iss;
                       customToken.Aud := firebaseAudience;
                       customToken.UID := uid;
                       customToken.Iat := clk n;
                       customToken.Exp := add64 (clk n) tokenExpSeconds;
                       customToken.Claims := devClaims |} |}
      (signer_ c) = Ok tok.
Proof.
  intros Hrun. destruct (Email (signer_ c)) as [iss|msg] eqn:HE.
  2: { by rewrite (CustomTokenWithClaims_signer_fails _ _ _ _ _ msg) in Hrun. }
  destruct (decide (1 <= String.length uid <= 128)%nat) as [Hlen|Hlen].
  2: { rewrite (CustomTokenWithClaims_invalid_uid _ _ _ _ _ iss) in Hrun;
         [done|done|lia]. }
  rewrite (CustomTokenWithClaims_valid_uid _ _ _ _ _ iss) in Hrun by done.
  exists iss. destruct (disallowed devClaims) as [|x [|y r]]; [|done|done].
  by inversion Hrun.
Qed.

(** What [jwtInfo.Token] returns is made of the two encoded segments and
    the encoded signature of their join. *)
Lemma jwtInfo_Token_success info s tok :
  jwtInfo_Token info s = Ok tok ->
  exists hseg pseg sig,
    encode MarshalHeader (header info) = Ok hseg /\
    encode MarshalPayload (payload info) = Ok pseg /\
    Sign s (hseg +:+ "." +:+ pseg) = Got sig /\
    tok = (hseg +:+ "." +:+ pseg) +:+ "." +:+ EncodeToString sig.
Proof.
  unfold jwtInfo_Token. intros Hrun.
  destruct (encode MarshalHeader (header info)) as [hseg|]; [|done].
  destruct (encode MarshalPayload (payload info)) as [pseg|]; [|done].
  destruct (Sign s (hseg +:+ "." +:+ pseg)) as [sig|] eqn:HS; [|done].
  exists hseg, pseg, sig. by inversion Hrun.
Qed.

Lemma jwtInfo_Token_failure info s e :
  jwtInfo_Token info s = Err e ->
  e = ErrMarshal \/ exists msg, e = ErrSigner msg.
Proof.
  unfold jwtInfo_Token, encode. intros Hrun.
  destruct (MarshalHeader (header info)); [|left; by inversion Hrun].
  destruct (MarshalPayload (payload info)); [|left; by inversion Hrun].
  destruct (Sign s _) as [sig|msg]; [done|].
  right. exists msg. by inversion Hrun.
Qed.

(** C10: the signer's identity is resolved before any input is validated:
    when the signer's [Email] call fails, [CustomTokenWithClaims] (and
    [CustomToken]) return that signer error and read no clock, whatever the
    uid and the claim map are; the error is not an input-validation
    error. *)
Theorem signer_error_precedes_validation c uid devClaims clk n msg :
  Email (signer_ c) = Failed msg ->
  CustomTokenWithClaims c uid devClaims clk n = (Err (ErrSigner msg), n) /\
  CustomToken c uid clk n = (Err (ErrSigner msg), n) /\
  kind_of (ErrSigner msg) <> InputValidation.
Proof.
  intros HE. unfold CustomToken.
  by rewrite !(CustomTokenWithClaims_signer_fails _ _ _ _ _ msg).
Qed.

(** C6, amended: for every uid of length 0 or of length greater than 128,
    [CustomToken] and [CustomTokenWithClaims] fail and return no token
    string; the error is the invalid-uid error, an input-validation error,
    whenever the signer's identity resolution succeeds, and the signer's
    error otherwise. *)
Theorem invalid_uid_rejected c uid devClaims clk n :
  (String.length uid = 0 \/ 128 < String.length uid)%nat ->
  (exists e, CustomTokenWithClaims c uid devClaims clk n = (Err e, n) /\
             CustomToken c uid clk n = (Err e, n)) /\
  (forall iss, Email (signer_ c) = Got iss ->
     CustomTokenWithClaims c uid devClaims clk n = (Err ErrInvalidUID, n) /\
     CustomToken c uid clk n = (Err ErrInvalidUID, n) /\
     kind_of ErrInvalidUID = InputValidation) /\
  (forall msg, Email (signer_ c) = Failed msg ->
     CustomTokenWithClaims c uid devClaims clk n = (Err (ErrSigner msg), n) /\
     CustomToken c uid clk n = (Err (ErrSigner msg), n)).
Proof.
  intros Huid. unfold CustomToken. split; [|split].
  - destruct (Email (signer_ c)) as [iss|msg] eqn:HE.
    + exists ErrInvalidUID.
      by rewrite !(CustomTokenWithClaims_invalid_uid _ _ _ _ _ iss).
    + exists (ErrSigner msg).
      by rewrite !(CustomTokenWithClaims_signer_fails _ _ _ _ _ msg).
  - intros iss HE.
    by rewrite !(CustomTokenWithClaims_invalid_uid _ _ _ _ _ iss).
  - intros msg HE.
    by rewrite !(CustomTokenWithClaims_signer_fails _ _ _ _ _ msg).
Qed.

(** C7, amended: when the signer's identity resolution succeeds and the uid
    has 1 to 128 characters, a claim map with exactly one reserved key
    fails with the singular error naming that key, and a claim map with two
    or more reserved keys fails with the plural error naming all of them,
    each once, in the order of the reserved list, joined by a comma and a
    space. Whatever the signer and the uid, a claim map with no reserved
    key raises no reserved-claims error. *)
Theorem reserved_claims_rejected c uid devClaims clk n :
  (forall iss, Email (signer_ c) = Got iss ->
     (1 <= String.length uid <= 128)%nat ->
     (forall k,
        k ∈ reservedClaims -> is_Some (devClaims !! k) ->
        (forall k', k' ∈ reservedClaims -> is_Some (devClaims !! k') ->
                    k' = k) ->
        CustomTokenWithClaims c uid devClaims clk n
          = (Err (ErrReservedClaim k), n)) /\
     (forall k1 k2,
        k1 ≠ k2 ->
        k1 ∈ reservedClaims -> is_Some (devClaims !! k1) ->
        k2 ∈ reservedClaims -> is_Some (devClaims !! k2) ->
        exists names,
          NoDup names /\ sublist names reservedClaims /\
          (forall k, k ∈ names <->
                     k ∈ reservedClaims /\ is_Some (devClaims !! k)) /\
          CustomTokenWithClaims c uid devClaims clk n
            = (Err (ErrReservedClaims (Join names ", ")), n))) /\
  ((forall k, k ∈ reservedClaims -> devClaims !! k = None) ->
   forall e, (CustomTokenWithClaims c uid devClaims clk n).1 = Err e ->
             is_reserved_claims_error e = false).
Proof.
  split.
  - intros iss HE Hlen.
    rewrite (CustomTokenWithClaims_valid_uid _ _ _ _ _ iss) by done. split.
    + intros k Hk Hin Huniq. by rewrite (disallowed_single _ k).
    + intros k1 k2 Hne H1 H1' H2 H2'.
      exists (disallowed devClaims).
      split; [apply disallowed_NoDup|].
      split; [apply disallowed_sublist|].
      split; [intros k; apply elem_of_disallowed|].
      pose proof (disallowed_several _ _ _ Hne H1 H1' H2 H2') as Hlen2.
      destruct (disallowed devClaims) as [|x [|y r]]; simpl in Hlen2;
        [lia|lia|done].
  - intros Hnone e Hrun.
    destruct (Email (signer_ c)) as [iss|msg] eqn:HE.
    2: { rewrite (CustomTokenWithClaims_signer_fails _ _ _ _ _ msg) in Hrun
           by done. simpl in Hrun. by inversion Hrun. }
    destruct (decide (1 <= String.length uid <= 128)%nat) as [Hlen|Hlen].
    2: { rewrite (CustomTokenWithClaims_invalid_uid _ _ _ _ _ iss) in Hrun;
           [|done|lia]. simpl in Hrun. by inversion Hrun. }
    rewrite (CustomTokenWithClaims_valid_uid _ _ _ _ _ iss) in Hrun by done.
    rewrite (disallowed_none _ Hnone) in Hrun. simpl in Hrun.
    by apply jwtInfo_Token_failure in Hrun as [->|[msg ->]].
Qed.

(** C8: for every successful mint, the payload that is encoded and signed
    has issuer and subject both equal to the signer's identity, the
    custom-token audience, the uid and the claim map of the call, issued-at
    equal to the clock reading, and expiry equal to issued-at plus 3600 in
    Go's [int64] addition, which is issued-at plus exactly 3600 whenever
    that sum is an [int64]. *)
Theorem minted_payload c uid devClaims clk n tok n' :
  CustomTokenWithClaims c uid devClaims clk n = (Ok tok, n') ->
  exists iss p hseg pseg sig,
    Email (signer_ c) = Got iss /\
    customToken.Iss p = iss /\ customToken.Sub p = iss /\
    customToken.Aud p = firebaseAudience /\
    customToken.UID p = uid /\
    customToken.Claims p = devClaims /\
    customToken.Iat p = clk n /\
    customToken.Exp p = add64 (customToken.Iat p) 3600 /\
    (in_int64 (customToken.Iat p + 3600) ->
     customToken.Exp p = customToken.Iat p + 3600) /\
    tokenExpSeconds = 60 * 60 /\
    encode MarshalHeader custom_header = Ok hseg /\
    encode MarshalPayload p = Ok pseg /\
    Sign (signer_ c) (hseg +:+ "." +:+ pseg) = Got sig /\
    tok = (hseg +:+ "." +:+ pseg) +:+ "." +:+ EncodeToString sig /\
    n' = S n.
Proof.
  intros Hrun.
  apply CustomTokenWithClaims_success in Hrun
    as (iss & HE & _ & _ & Hn & Htok).
  apply jwtInfo_Token_success in Htok as (hseg & pseg & sig & Hh & Hp & HS & ->).
  exists iss,
    {| customToken.Iss := iss; customToken.Sub := iss;
       customToken.Aud := firebaseAudience; customToken.UID := uid;
       customToken.Iat := clk n;
       customToken.Exp := add64 (clk n) tokenExpSeconds;
       customToken.Claims := devClaims |}, hseg, pseg, sig.
  simpl. repeat split; try done.
  intros Hrange. unfold add64, tokenExpSeconds. by apply wrap64_in_range.
Qed.

End Minting.

(** ** Verification *)

Lemma first_failing_Some checks e :
  first_failing checks = Some e <->
  exists i, checks !! i = Some (true, e) /\
            forall j b e', (j < i)%nat -> checks !! j = Some (b, e') -> b = false.
Proof.
  induction checks as [|[b e0] rest IH]; simpl.
  - split; [done|]. by intros (i & Hi & _).
  - destruct b.
    + split.
      * intros [= ->]. exists 0%nat. split; [done|]. intros; lia.
      * intros (i & Hi & Hbefore). destruct i as [|i]; [by inversion Hi|].
        by specialize (Hbefore 0%nat true e0 ltac:(lia) eq_refl).
    + rewrite IH. split.
      * intros (i & Hi & Hbefore). exists (S i). split; [done|].
        intros [|j] b e' Hj Hl; [by inversion Hl|].
        apply (Hbefore j b e'); [lia|done].
      * intros (i & Hi & Hbefore). destruct i as [|i]; [by inversion Hi|].
        exists i. split; [done|]. intros j b e' Hj Hl.
        apply (Hbefore (S j) b e'); [lia|done].
Qed.

Lemma first_failing_None checks :
  first_failing checks = None <->
  forall i b e, checks !! i = Some (b, e) -> b = false.
Proof.
  induction checks as [|[b e0] rest IH]; simpl.
  - split; [|done]. by intros _ i b e.
  - destruct b.
    + split; [done|]. intros Hall.
      by specialize (Hall 0%nat true e0 eq_refl).
    + rewrite IH. split.
      * intros Hall [|i] b e Hi; [by inversion Hi|]. by apply (Hall i b e).
      * intros Hall i b e Hi. by apply (Hall (S i) b e).
Qed.

(** Deleting the standard names from a claim map. *)
Lemma lookup_delete_all (m : gmap string json) (names : list string) k :
  foldl (fun m r => delete r m) m names !! k =
    if decide (k ∈ names) then None else m !! k.
Proof.
  revert m. induction names as [|r names IH]; intros m; simpl.
  - destruct (decide (k ∈ [])) as [Hin|]; [|done].
    by apply not_elem_of_nil in Hin.
  - rewrite IH.
    destruct (decide (k ∈ names)) as [Hin|Hnin],
             (decide (k ∈ r :: names)) as [Hin'|Hnin']; try done.
    + exfalso. apply Hnin'. by right.
    + apply elem_of_cons in Hin' as [->|?]; [|done].
      apply lookup_delete_eq.
    + apply lookup_delete_ne. intros ->. apply Hnin'. by left.
Qed.

Section Verification.
Context {enc : Encoding}.

Lemma reaches_checks_decoded c idToken h p :
  decoded c idToken = Some (h, p) <-> reaches_checks c idToken h p.
Proof.
  unfold decoded, reaches_checks. split.
  - intros Hd.
    case_bool_decide as Hp; [done|]. case_bool_decide as Ht; [done|].
    destruct (verifyToken idToken (ks c)); [done|].
    destruct (Split idToken "." !! 0%nat) as [s0|]; [|done].
    destruct (Split idToken "." !! 1%nat) as [s1|]; [|done].
    destruct (decode UnmarshalHeader s0) as [h'|] eqn:Hh; [|done].
    destruct (decode UnmarshalToken s1) as [p0|] eqn:Hp0; [|done].
    destruct (decode UnmarshalClaims s1) as [m|] eqn:Hm; [|done].
    injection Hd as <- <-. do 3 (split; [done|]). by exists s0, s1, p0, m.
  - intros (Hp & Ht & Hv & s0 & s1 & p0 & m & H0 & H1 & Hh & Hp0 & Hm & ->).
    rewrite !bool_decide_eq_false_2 by done.
    by rewrite Hv, H0, H1, Hh, Hp0, Hm.
Qed.

(** The guards before the signature verification (auth.go, lines
    210-215). *)
Lemma VerifyIDToken_unconfigured c idToken clk n :
  projectID c = "" ->
  VerifyIDToken c idToken clk n = (Err ErrProjectIDNotAvailable, n).
Proof.
  intros Hp. unfold VerifyIDToken. by rewrite bool_decide_eq_true_2.
Qed.

Lemma VerifyIDToken_empty c clk n :
  projectID c ≠ "" ->
  VerifyIDToken c "" clk n = (Err ErrEmptyIDToken, n).
Proof.
  intros Hp. unfold VerifyIDToken. by rewrite bool_decide_eq_false_2.
Qed.

(** The signature verification (auth.go, lines 217-219). *)
Lemma VerifyIDToken_rejected c idToken clk n e :
  projectID c ≠ "" -> idToken ≠ "" ->
  verifyToken idToken (ks c) = Some e ->
  VerifyIDToken c idToken clk n = (Err e, n).
Proof.
  intros Hp Ht Hv. unfold VerifyIDToken.
  rewrite !bool_decide_eq_false_2 by done. by rewrite Hv.
Qed.

Lemma decode_failure {A} (unmarshal : string -> option A) s e :
  decode unmarshal s = Err e -> e = ErrBase64 \/ e = ErrJSON.
Proof.
  unfold decode, from_option. intros Hd.
  destruct (DecodeString s) as [b|]; [|left; by inversion Hd].
  destruct (unmarshal b); [done|]. right. by inversion Hd.
Qed.

(** What [verifyToken] can fail with. *)
Lemma verifyToken_failure token keys e :
  verifyToken token keys = Some e ->
  kind_of e = StructuralDecode \/ kind_of e = CryptographicVerification \/
  kind_of e = TransportUnavailable.
Proof.
  unfold verifyToken, decode, from_option. intros Hv.
  destruct (Split token ".") as [|s0 [|s1 [|s2 [|s3 r]]]];
    try (injection Hv as <-; by left).
  destruct (DecodeString s0) as [b|]; [|injection Hv as <-; by left].
  destruct (UnmarshalHeader b) as [h|]; [|injection Hv as <-; by left].
  destruct (GetKey keys (KeyID h)) as [k| |msg];
    [|injection Hv as <-; right; by left|injection Hv as <-; right; by right].
  destruct (DecodeString s2) as [sig|]; [|injection Hv as <-; by left].
  destruct (pk_verify k _ _ sig); [done|..];
    injection Hv as <-; right; by left.
Qed.

(** A token that [verifyToken] accepts has three segments. *)
Lemma verifyToken_segments token keys :
  verifyToken token keys = None ->
  exists s0 s1 s2, Split token "." = [s0; s1; s2].
Proof.
  unfold verifyToken. intros Hv.
  destruct (Split token ".") as [|s0 [|s1 [|s2 [|s3 r]]]]; try done.
  by exists s0, s1, s2.
Qed.

(** Past the decoding, the result is the one of the guard chain (auth.go,
    lines 248-278). *)
Lemma VerifyIDToken_reached c idToken h p clk n :
  reaches_checks c idToken h p ->
  (VerifyIDToken c idToken clk n).1 =
    match first_failing
            (semantic_checks (projectID c) h p (clk n) (clk (S n))) with
    | Some e => Err e
    | None => Ok (set_UID p (Subject p))
    end.
Proof.
  intros (Hp & Ht & Hv & s0 & s1 & p0 & m & H0 & H1 & Hh & Hp0 & Hm & ->).
  unfold VerifyIDToken.
  rewrite !bool_decide_eq_false_2 by done. rewrite Hv.
  unfold_M. rewrite H0. simpl. rewrite Hh, H1. simpl. rewrite Hp0, Hm.
  unfold semantic_checks, first_failing.
  set (p := set_Claims p0 _).
  repeat match goal with
         | |- context [if ?b then _ else _] => destruct b; simpl; try done
         end.
Qed.

(** An accepted token went through the guard chain and failed none of its
    checks. *)
Lemma VerifyIDToken_accepted c idToken clk n t n' :
  VerifyIDToken c idToken clk n = (Ok t, n') ->
  exists h p,
    reaches_checks c idToken h p /\
    first_failing (semantic_checks (projectID c) h p (clk n) (clk (S n)))
      = None /\
    t = set_UID p (Subject p).
Proof.
  intros Hrun. pose proof Hrun as Hrun0. unfold VerifyIDToken in Hrun.
  case_bool_decide as Hp; [done|]. case_bool_decide as Ht; [done|].
  destruct (verifyToken idToken (ks c)) eqn:Hv; [done|].
  unfold_M.
  destruct (Split idToken "." !! 0%nat) as [s0|] eqn:H0; [|done].
  simpl in Hrun.
  destruct (decode UnmarshalHeader s0) as [h|] eqn:Hh; [|done].
  destruct (Split idToken "." !! 1%nat) as [s1|] eqn:H1; [|done].
  simpl in Hrun.
  destruct (decode UnmarshalToken s1) as [p0|] eqn:Hp0; [|done].
  destruct (decode UnmarshalClaims s1) as [m|] eqn:Hm; [|done].
  clear Hrun.
  exists h, (set_Claims p0 (foldl (fun m r => delete r m) m standardClaims)).
  assert (Hreach : reaches_checks c idToken h
            (set_Claims p0 (foldl (fun m r => delete r m) m standardClaims))).
  { do 3 (split; [done|]). by exists s0, s1, p0, m. }
  split; [done|].
  pose proof (VerifyIDToken_reached c idToken h _ clk n Hreach) as Hres.
  rewrite Hrun0 in Hres. cbn [fst] in Hres.
  destruct (first_failing _); [done|]. by injection Hres as ->.
Qed.

(** [VerifyIDToken] never indexes the segments out of range. *)
Lemma VerifyIDToken_no_panic c idToken clk n :
  (VerifyIDToken c idToken clk n).1 <> Err PanicIndexOutOfRange.
Proof.
  unfold VerifyIDToken.
  case_bool_decide; [done|]. case_bool_decide; [done|].
  destruct (verifyToken idToken (ks c)) as [e|] eqn:Hv.
  - simpl. intros [= ->].
    by destruct (verifyToken_failure _ _ _ Hv) as [E|[E|E]]; simpl in E.
  - apply verifyToken_segments in Hv as (s0 & s1 & s2 & ->).
    unfold_M. simpl.
    destruct (decode UnmarshalHeader s0) as [h|e] eqn:Eh; simpl.
    2: { intros [= ->]. by apply decode_failure in Eh as [?|?]. }
    destruct (decode UnmarshalToken s1) as [p0|e] eqn:Ep; simpl.
    2: { intros [= ->]. by apply decode_failure in Ep as [?|?]. }
    destruct (decode UnmarshalClaims s1) as [m|e] eqn:Em; simpl.
    2: { intros [= ->]. by apply decode_failure in Em as [?|?]. }
    repeat match goal with
           | |- context [if ?b then _ else _] => destruct b; simpl; try done
           end.
Qed.

(** C2: once the preconditions, the signature verification and the decoding
    have passed, the result of [VerifyIDToken] is decided by the eight
    checks taken in the order (a) key id missing, (b) algorithm is not
    RS256, (c) audience is not the project id, (d) issuer is not the issuer
    prefix followed by the project id, (e) issued-at strictly greater than
    the clock reading, (f) expiry strictly less than the next clock reading,
    (g) subject empty, (h) subject longer than 128 characters: an error is
    returned exactly when it is the error of the first check that fails,
    and the token is returned, with its UID set to the subject, exactly
    when no check fails. *)
Theorem semantic_checks_in_order c idToken h p clk n :
  reaches_checks c idToken h p ->
  let checks := semantic_checks (projectID c) h p (clk n) (clk (S n)) in
  checks.*1 =
    [ bool_decide (KeyID h = "");
      bool_decide (Algorithm h ≠ "RS256");
      bool_decide (Audience p ≠ projectID c);
      bool_decide (Issuer p ≠ issuerPrefix +:+ projectID c);
      IssuedAt p >? clk n;
      Expires p <? clk (S n);
      bool_decide (Subject p = "");
      (128 <? String.length (Subject p))%nat ] /\
  (forall e,
     (VerifyIDToken c idToken clk n).1 = Err e <->
     exists i, checks !! i = Some (true, e) /\
               forall j b e', (j < i)%nat -> checks !! j = Some (b, e') ->
                              b = false) /\
  (forall t,
     (VerifyIDToken c idToken clk n).1 = Ok t <->
     (forall i b e, checks !! i = Some (b, e) -> b = false) /\
     t = set_UID p (Subject p)).
Proof.
  intros Hreach checks. split; [done|].
  rewrite (VerifyIDToken_reached c idToken h p clk n Hreach). fold checks.
  split.
  - intros e. rewrite <- first_failing_Some.
    destruct (first_failing checks); split; intros Heq; congruence.
  - intros t. rewrite <- first_failing_None.
    destruct (first_failing checks).
    + split; [done|]. by intros [? _].
    + split; [intros [= <-]; done|]. by intros [_ ->].
Qed.

(** C3: on every token on which the signature-verification step
    [verifyToken] fails, [VerifyIDToken] fails without reading the clock or
    evaluating a semantic check, with an error that is not a semantic-claim
    error; the step is run when the project id is configured and the token
    string is not empty, and [VerifyIDToken] then returns exactly the error
    of the step. *)
Theorem verification_failure_is_returned c idToken clk n e :
  verifyToken idToken (ks c) = Some e ->
  (projectID c ≠ "" -> idToken ≠ "" ->
   VerifyIDToken c idToken clk n = (Err e, n)) /\
  kind_of e <> SemanticClaim /\
  exists e', VerifyIDToken c idToken clk n = (Err e', n) /\
             kind_of e' <> SemanticClaim.
Proof.
  intros Hv.
  assert (Hk : kind_of e <> SemanticClaim).
  { intros Hk. destruct (verifyToken_failure _ _ _ Hv) as [E|[E|E]]; congruence. }
  split; [intros Hp Ht; by apply VerifyIDToken_rejected|]. split; [done|].
  destruct (decide (projectID c = "")) as [Hp|Hp].
  { exists ErrProjectIDNotAvailable.
    by rewrite VerifyIDToken_unconfigured. }
  destruct (decide (idToken = "")) as [->|Ht].
  { exists ErrEmptyIDToken. by rewrite VerifyIDToken_empty. }
  exists e. by rewrite (VerifyIDToken_rejected _ _ _ _ e).
Qed.

(** C5, amended: for every token that passes the preconditions, the
    signature verification and the decoding, and whose header key
    identifier is empty, the error is the custom-token one if the payload
    audience is the custom-token audience, and the missing-key-id one
    otherwise. *)
Theorem missing_key_id_error c idToken h p clk n :
  reaches_checks c idToken h p ->
  KeyID h = "" ->
  (Audience p = firebaseAudience ->
   (VerifyIDToken c idToken clk n).1 = Err ErrCustomToken) /\
  (Audience p ≠ firebaseAudience ->
   (VerifyIDToken c idToken clk n).1 = Err ErrNoKeyID).
Proof.
  intros Hreach Hkid.
  rewrite (VerifyIDToken_reached c idToken h p clk n Hreach).
  unfold semantic_checks, first_failing.
  rewrite (bool_decide_eq_true_2 _ Hkid). split; intros Haud.
  - by rewrite bool_decide_eq_true_2.
  - by rewrite bool_decide_eq_false_2.
Qed.

(** C9: the claim map of every token that [VerifyIDToken] returns holds
    none of the standard claim names [iss, aud, exp, iat, sub, uid], and
    under every other name it holds what the payload segment decodes to. *)
Theorem claims_without_standard_names c idToken clk n t n' :
  VerifyIDToken c idToken clk n = (Ok t, n') ->
  (forall k, k ∈ standardClaims -> Claims t !! k = None) /\
  exists s1 decoded,
    Split idToken "." !! 1%nat = Some s1 /\
    decode UnmarshalClaims s1 = Ok decoded /\
    forall k, k ∉ standardClaims -> Claims t !! k = decoded !! k.
Proof.
  intros Hrun.
  apply VerifyIDToken_accepted in Hrun as (h & p & Hreach & _ & ->).
  destruct Hreach as (_ & _ & _ & s0 & s1 & p0 & m & _ & H1 & _ & _ & Hm & ->).
  unfold set_UID, set_Claims. cbn [Claims]. split.
  - intros k Hk. rewrite lookup_delete_all. by rewrite decide_True.
  - exists s1, m. do 2 (split; [done|]).
    intros k Hk. rewrite lookup_delete_all. by rewrite decide_False.
Qed.

(** C4: for a token that [VerifyIDToken] accepts and a user record that the
    lookup returns, [VerifyIDTokenAndCheckRevoked] fails with the revoked
    error exactly when the issued-at times 1000, in Go's [int64]
    multiplication, is strictly less than [TokensValidAfterMillis], and
    returns the token otherwise, in particular when the two are equal;
    whenever issued-at times 1000 is an [int64], the same holds of the
    exact product. *)
Theorem revocation_check c idToken clk n p n' user :
  VerifyIDToken c idToken clk n = (Ok p, n') ->
  GetUser c (UID p) = Ok user ->
  (VerifyIDTokenAndCheckRevoked c idToken clk n = (Err ErrIDTokenRevoked, n')
   <-> mul64 (IssuedAt p) 1000 < TokensValidAfterMillis user) /\
  (VerifyIDTokenAndCheckRevoked c idToken clk n = (Ok p, n')
   <-> TokensValidAfterMillis user <= mul64 (IssuedAt p) 1000) /\
  (mul64 (IssuedAt p) 1000 = TokensValidAfterMillis user ->
   VerifyIDTokenAndCheckRevoked c idToken clk n = (Ok p, n')) /\
  (in_int64 (IssuedAt p * 1000) ->
   (VerifyIDTokenAndCheckRevoked c idToken clk n = (Err ErrIDTokenRevoked, n')
    <-> IssuedAt p * 1000 < TokensValidAfterMillis user) /\
   (IssuedAt p * 1000 = TokensValidAfterMillis user ->
    VerifyIDTokenAndCheckRevoked c idToken clk n = (Ok p, n'))).
Proof.
  intros Hrun Huser. unfold VerifyIDTokenAndCheckRevoked. unfold_M.
  rewrite Hrun, Huser.
  assert (Hexact : in_int64 (IssuedAt p * 1000) ->
                   mul64 (IssuedAt p) 1000 = IssuedAt p * 1000)
    by apply wrap64_in_range.
  destruct (Z.ltb_spec (mul64 (IssuedAt p) 1000) (TokensValidAfterMillis user))
    as [Hlt|Hge].
  - split; [|split; [|split]].
    + split; [done|]. by intros _.
    + split; [done|lia].
    + lia.
    + intros Hrange. rewrite <- (Hexact Hrange). split; [|lia].
      split; [done|]. by intros _.
  - split; [|split; [|split]].
    + split; [done|lia].
    + split; [done|]. by intros _.
    + by intros _.
    + intros Hrange. rewrite <- (Hexact Hrange). split; [|done].
      split; [done|lia].
Qed.

Lemma append_assoc (a b d : string) : (a +:+ b) +:+ d = a +:+ (b +:+ d).
Proof.
  induction a as [|x a IH]; [done|]. rewrite !append_cons. by rewrite IH.
Qed.

(** The first segment of a minted token is the encoded custom header. *)
Lemma minted_token_header c uid devClaims clk n tok n' :
  CustomTokenWithClaims c uid devClaims clk n = (Ok tok, n') ->
  exists b rest,
    MarshalHeader custom_header = Some b /\
    tok = EncodeToString b +:+ "." +:+ rest.
Proof.
  intros Hmint.
  apply CustomTokenWithClaims_success in Hmint
    as (iss & _ & _ & _ & _ & Htok).
  apply jwtInfo_Token_success in Htok
    as (hseg & pseg & sig & Hh & _ & _ & ->).
  cbn [header] in Hh. unfold encode in Hh.
  destruct (MarshalHeader custom_header) as [b|]; [|done].
  injection Hh as <-.
  exists b, (pseg +:+ "." +:+ EncodeToString sig).
  split; [done|]. by rewrite !append_assoc.
Qed.

(** C1, amended: a token minted by [CustomTokenWithClaims] is never
    accepted by [VerifyIDToken], whatever client and clock verify it,
    provided the codec gives back the custom header it encoded: the minted
    header has no key id, so a verification that gets past the signature
    verification and the decoding stops at the first semantic check, with
    the custom-token error or the missing-key-id error. *)
Theorem minted_token_is_not_an_id_token c uid devClaims clk n tok n' :
  header_round_trips custom_header ->
  CustomTokenWithClaims c uid devClaims clk n = (Ok tok, n') ->
  forall c' clk' m,
    (forall t, (VerifyIDToken c' tok clk' m).1 <> Ok t) /\
    (forall h p, reaches_checks c' tok h p ->
       KeyID h = "" /\
       ((VerifyIDToken c' tok clk' m).1 = Err ErrCustomToken \/
        (VerifyIDToken c' tok clk' m).1 = Err ErrNoKeyID)).
Proof.
  intros Hrt Hmint c' clk' m.
  apply minted_token_header in Hmint as (b & rest & Hb & ->).
  destruct (Hrt b Hb) as [Hdot Hdec].
  assert (Hkey : forall h p,
            reaches_checks c' (EncodeToString b +:+ "." +:+ rest) h p ->
            h = custom_header).
  { intros h p (_ & _ & _ & s0 & s1 & p0 & m0 & H0 & _ & Hh & _).
    rewrite (Split_prefix _ _ Hdot) in H0. injection H0 as <-. congruence. }
  split.
  - intros t Ht.
    destruct (VerifyIDToken c' _ clk' m) as [r m'] eqn:Hrun.
    cbn [fst] in Ht. subst r.
    apply VerifyIDToken_accepted in Hrun as (h & p & Hreach & Hnone & _).
    rewrite (Hkey _ _ Hreach) in Hnone. done.
  - intros h p Hreach. pose proof (Hkey _ _ Hreach) as ->. split; [done|].
    rewrite (VerifyIDToken_reached _ _ _ _ clk' m Hreach).
    unfold semantic_checks, first_failing. cbn [KeyID custom_header].
    rewrite bool_decide_eq_true_2 by done. case_bool_decide; auto.
Qed.

End Verification.

(** * The properties on the reference instance *)

#[local] Existing Instance Reference.encoding.

Lemma reference_header_round_trips : header_round_trips custom_header.
Proof.
  intros b Hb. vm_compute in Hb. injection Hb as <-. split; by vm_compute.
Qed.

Lemma reference_mint :
  CustomTokenWithClaims Reference.shared_client "alice" Reference.admin_claims
    Reference.clk 0%nat = (Ok Reference.alice_custom_token, 1%nat).
Proof. by vm_compute. Qed.

Lemma reference_alice_decoded :
  reaches_checks Reference.client Reference.alice_token
    Reference.alice_header Reference.alice_payload.
Proof. apply reaches_checks_decoded. by vm_compute. Qed.

Lemma reference_alice_verified :
  VerifyIDToken Reference.client Reference.alice_token Reference.clk 0%nat
    = (Ok (set_UID Reference.alice_payload "alice"), 2%nat).
Proof. by vm_compute. Qed.

Lemma reference_alice_early_verified :
  VerifyIDToken Reference.client Reference.alice_early_token Reference.clk
    0%nat = (Ok (set_UID Reference.alice_early_payload "alice"), 2%nat).
Proof. by vm_compute. Qed.

Lemma reference_stale_foreign_decoded :
  reaches_checks Reference.client Reference.stale_foreign_token
    Reference.alice_header Reference.stale_foreign_payload.
Proof. apply reaches_checks_decoded. by vm_compute. Qed.

Lemma reference_custom_decoded :
  reaches_checks Reference.shared_client Reference.alice_custom_token
    custom_header Reference.alice_custom_payload.
Proof. apply reaches_checks_decoded. by vm_compute. Qed.

(** C1, counterexample: the custom token that a client mints for alice,
    with the claim [admin], is rejected by [VerifyIDToken] of the same
    client, although its key source trusts the key of its own signer. *)
Lemma mint_then_verify_counterexample :
  CustomTokenWithClaims Reference.shared_client "alice" Reference.admin_claims
    Reference.clk 0%nat = (Ok Reference.alice_custom_token, 1%nat) /\
  VerifyIDToken Reference.shared_client Reference.alice_custom_token
    Reference.clk 1%nat = (Err ErrCustomToken, 1%nat).
Proof. split; by vm_compute. Qed.

(** With the keys of the token issuer, the same token does not get past the
    signature verification. *)
Example minted_token_unknown_key :
  VerifyIDToken Reference.client Reference.alice_custom_token Reference.clk
    1%nat = (Err (ErrNoMatchingKey ""), 1%nat).
Proof. by vm_compute. Qed.

Lemma minted_token_is_not_an_id_token_witness :
  KeyID custom_header = "" /\
  ((VerifyIDToken Reference.shared_client Reference.alice_custom_token
      Reference.clk 1%nat).1 = Err ErrCustomToken \/
   (VerifyIDToken Reference.shared_client Reference.alice_custom_token
      Reference.clk 1%nat).1 = Err ErrNoKeyID).
Proof.
  exact (proj2 (minted_token_is_not_an_id_token
                  Reference.shared_client "alice" Reference.admin_claims
                  Reference.clk 0%nat Reference.alice_custom_token 1%nat
                  reference_header_round_trips reference_mint
                  Reference.shared_client Reference.clk 1%nat)
           custom_header Reference.alice_custom_payload
           reference_custom_decoded).
Defined.

Lemma semantic_checks_in_order_witness :
  (VerifyIDToken Reference.client Reference.stale_foreign_token Reference.clk
     0%nat).1 = Err (ErrInvalidAudience "demo-project" "other-project").
Proof.
  destruct (semantic_checks_in_order Reference.client
              Reference.stale_foreign_token Reference.alice_header
              Reference.stale_foreign_payload Reference.clk 0%nat
              reference_stale_foreign_decoded) as (_ & Herr & _).
  apply Herr. exists 2%nat. split; [reflexivity|].
  intros [|[|j]] b e' Hj Hl; [by injection Hl as <- _..|lia].
Defined.

Lemma verification_failure_is_returned_witness :
  VerifyIDToken Reference.client (Reference.flip_last Reference.alice_token)
    Reference.clk 0%nat = (Err ErrSignatureMismatch, 0%nat).
Proof.
  assert (Hv : verifyToken (Reference.flip_last Reference.alice_token)
                 (ks Reference.client) = Some ErrSignatureMismatch)
    by (vm_compute; reflexivity).
  apply (proj1 (verification_failure_is_returned Reference.client
                  (Reference.flip_last Reference.alice_token) Reference.clk
                  0%nat ErrSignatureMismatch Hv)).
  - discriminate.
  - vm_compute. discriminate.
Defined.

Lemma revocation_check_witness :
  VerifyIDTokenAndCheckRevoked Reference.client Reference.alice_early_token
    Reference.clk 0%nat = (Err ErrIDTokenRevoked, 2%nat).
Proof.
  apply (proj1 (revocation_check Reference.client Reference.alice_early_token
                  Reference.clk 0%nat
                  (set_UID Reference.alice_early_payload "alice") 2%nat
                  {| UserID := "alice";
                     TokensValidAfterMillis := 1700000000000 |}
                  reference_alice_early_verified eq_refl)).
  vm_compute. reflexivity.
Defined.

(** A token issued in the very second of the cutoff is accepted. *)
Example revocation_boundary :
  mul64 (IssuedAt Reference.alice_payload) 1000 = 1700000000000 /\
  VerifyIDTokenAndCheckRevoked Reference.client Reference.alice_token
    Reference.clk 0%nat = (Ok (set_UID Reference.alice_payload "alice"), 2%nat).
Proof. split; by vm_compute. Qed.

(** C5, counterexample: alice's custom token has no key id in its header
    and the custom-token audience in its payload; a client without a
    project id answers it with the configuration error, and a client with
    the keys of the token issuer with the error of the signature
    verification: neither is one of the two errors of the missing-key-id
    check. *)
Lemma missing_key_id_counterexample :
  header_of Reference.alice_custom_token = Ok custom_header /\
  KeyID custom_header = "" /\
  audience_of Reference.alice_custom_token = Ok firebaseAudience /\
  VerifyIDToken Reference.unconfigured_client Reference.alice_custom_token
    Reference.clk 0%nat = (Err ErrProjectIDNotAvailable, 0%nat) /\
  VerifyIDToken Reference.client Reference.alice_custom_token Reference.clk
    0%nat = (Err (ErrNoMatchingKey ""), 0%nat).
Proof. repeat split; by vm_compute. Qed.

Lemma missing_key_id_error_witness :
  (VerifyIDToken Reference.shared_client Reference.alice_custom_token
     Reference.clk 1%nat).1 = Err ErrCustomToken.
Proof.
  apply (missing_key_id_error Reference.shared_client
           Reference.alice_custom_token custom_header
           Reference.alice_custom_payload Reference.clk 1%nat
           reference_custom_decoded eq_refl).
  reflexivity.
Defined.

Lemma claims_without_standard_names_witness :
  (forall k, k ∈ standardClaims ->
     Claims (set_UID Reference.alice_payload "alice") !! k = None) /\
  exists s1 decoded,
    Split Reference.alice_token "." !! 1%nat = Some s1 /\
    decode UnmarshalClaims s1 = Ok decoded /\
    forall k, k ∉ standardClaims ->
      Claims (set_UID Reference.alice_payload "alice") !! k = decoded !! k.
Proof.
  exact (claims_without_standard_names Reference.client Reference.alice_token
           Reference.clk 0%nat (set_UID Reference.alice_payload "alice")
           2%nat reference_alice_verified).
Defined.

(** The names that are reserved for minting but are not among the six
    standard ones stay in the claim map. *)
Example reserved_name_kept :
  Claims (set_UID Reference.alice_payload "alice") !! "firebase"
    = Some (JObj []).
Proof. by vm_compute. Qed.

(** C6, counterexample: with a signer whose identity cannot be resolved,
    the empty uid is rejected with the signer's error, which is not an
    input-validation error. *)
Lemma invalid_uid_counterexample :
  String.length "" = 0%nat /\
  CustomToken Reference.unreachable_client "" Reference.clk 0%nat
    = (Err (ErrSigner "signing authority unreachable"), 0%nat) /\
  CustomTokenWithClaims Reference.unreachable_client "" ∅ Reference.clk 0%nat
    = (Err (ErrSigner "signing authority unreachable"), 0%nat) /\
  kind_of (ErrSigner "signing authority unreachable") = TransportUnavailable.
Proof. repeat split; by vm_compute. Qed.

Lemma invalid_uid_rejected_witness :
  CustomTokenWithClaims Reference.client "" Reference.admin_claims
    Reference.clk 0%nat = (Err ErrInvalidUID, 0%nat) /\
  CustomToken Reference.client "" Reference.clk 0%nat
    = (Err ErrInvalidUID, 0%nat) /\
  kind_of ErrInvalidUID = InputValidation.
Proof.
  apply (proj1 (proj2 (invalid_uid_rejected Reference.client ""
                         Reference.admin_claims Reference.clk 0%nat
                         (or_introl eq_refl)))
           Reference.service_account).
  reflexivity.
Defined.

(** C7, counterexample: a claim map whose one reserved key is [aud] is not
    answered with the error naming [aud] when the signer's identity cannot
    be resolved, nor when the uid is empty. *)
Lemma reserved_claims_counterexample :
  Reference.aud_claims !! "aud" = Some (JStr "x") /\
  CustomTokenWithClaims Reference.unreachable_client "alice"
    Reference.aud_claims Reference.clk 0%nat
    = (Err (ErrSigner "signing authority unreachable"), 0%nat) /\
  CustomTokenWithClaims Reference.client "" Reference.aud_claims
    Reference.clk 0%nat = (Err ErrInvalidUID, 0%nat).
Proof. repeat split; by vm_compute. Qed.

Lemma reserved_claims_rejected_witness :
  CustomTokenWithClaims Reference.client "alice" Reference.aud_claims
    Reference.clk 0%nat = (Err (ErrReservedClaim "aud"), 0%nat).
Proof.
  assert (Hlen : (1 <= String.length "alice" <= 128)%nat) by (simpl; lia).
  apply (proj1 (proj1 (reserved_claims_rejected Reference.client "alice"
                         Reference.aud_claims Reference.clk 0%nat)
                  Reference.service_account eq_refl Hlen)).
  - apply (bool_decide_unpack _). by vm_compute.
  - by exists (JStr "x").
  - intros k' _ [v Hv]. unfold Reference.aud_claims in Hv.
    by apply lookup_singleton_Some in Hv as [<- _].
Defined.

(** Two reserved keys are named in the order of the reserved list. *)
Example reserved_claims_plural :
  CustomTokenWithClaims Reference.client "alice" Reference.sub_aud_claims
    Reference.clk 0%nat = (Err (ErrReservedClaims "aud, sub"), 0%nat).
Proof. by vm_compute. Qed.

Lemma minted_payload_witness :
  exists iss p hseg pseg sig,
    Email (signer_ Reference.shared_client) = Got iss /\
    customToken.Iss p = iss /\ customToken.Sub p = iss /\
    customToken.Aud p = firebaseAudience /\
    customToken.UID p = "alice" /\
    customToken.Claims p = Reference.admin_claims /\
    customToken.Iat p = Reference.clk 0%nat /\
    customToken.Exp p = add64 (customToken.Iat p) 3600 /\
    (in_int64 (customToken.Iat p + 3600) ->
     customToken.Exp p = customToken.Iat p + 3600) /\
    tokenExpSeconds = 60 * 60 /\
    encode MarshalHeader custom_header = Ok hseg /\
    encode MarshalPayload p = Ok pseg /\
    Sign (signer_ Reference.shared_client) (hseg +:+ "." +:+ pseg) = Got sig /\
    Reference.alice_custom_token
      = (hseg +:+ "." +:+ pseg) +:+ "." +:+ EncodeToString sig /\
    1%nat = 1%nat.
Proof.
  exact (minted_payload Reference.shared_client "alice" Reference.admin_claims
           Reference.clk 0%nat Reference.alice_custom_token 1%nat
           reference_mint).
Defined.

(** Near the end of the [int64] range the expiry wraps around. *)
Example expiry_wraps :
  add64 max_int64 tokenExpSeconds = min_int64 + 3599.
Proof. by vm_compute. Qed.

Lemma signer_error_precedes_validation_witness :
  CustomTokenWithClaims Reference.unreachable_client "" Reference.aud_claims
    Reference.clk 0%nat
    = (Err (ErrSigner "signing authority unreachable"), 0%nat) /\
  CustomToken Reference.unreachable_client "" Reference.clk 0%nat
    = (Err (ErrSigner "signing authority unreachable"), 0%nat) /\
  kind_of (ErrSigner "signing authority unreachable") <> InputValidation.
Proof.
  exact (signer_error_precedes_validation Reference.unreachable_client ""
           Reference.aud_claims Reference.clk 0%nat
           "signing authority unreachable" eq_refl).
Defined.

(** ** Further runs of the verifier *)

(** An unknown key id and an algorithm that the key does not verify are
    errors of the signature verification, not of the semantic checks. *)
Example unsupported_algorithm :
  VerifyIDToken Reference.client Reference.hs256_token Reference.clk 0%nat
    = (Err (ErrUnsupportedAlgorithm "HS256"), 0%nat).
Proof. by vm_compute. Qed.

(** A token is accepted in the second of its expiry and rejected one second
    later. *)
Example expiry_boundary :
  (VerifyIDToken Reference.client Reference.alice_token
     (Reference.fixed_clock (Reference.t0 + 3600)) 0%nat).1
    = Ok (set_UID Reference.alice_payload "alice") /\
  VerifyIDToken Reference.client Reference.alice_token
    (Reference.fixed_clock (Reference.t0 + 3601)) 0%nat
    = (Err (ErrExpired (Reference.t0 + 3600)), 2%nat).
Proof. split; by vm_compute. Qed.

(** The expiry is compared with the second reading of the clock. *)
Example expiry_second_reading :
  VerifyIDToken Reference.client Reference.alice_token
    (Reference.ticking_clock (Reference.t0 + 3600)) 0%nat
    = (Err (ErrExpired (Reference.t0 + 3600)), 2%nat).
Proof. by vm_compute. Qed.

(** A token issued one second after the reading of the clock is rejected. *)
Example issued_in_future :
  VerifyIDToken Reference.client Reference.alice_token
    (Reference.fixed_clock (Reference.t0 - 1)) 0%nat
    = (Err (ErrIssuedInFuture Reference.t0), 1%nat).
Proof. by vm_compute. Qed.

(** A user that the lookup does not find: neither revoked nor accepted. *)
Example revocation_lookup_fails :
  VerifyIDTokenAndCheckRevoked Reference.client
    (Reference.id_token "bob" Reference.t0 (Reference.t0 + 3600) [])
    Reference.clk 0%nat = (Err (ErrUserLookup "user not found"), 2%nat).
Proof. by vm_compute. Qed.

(** * Further properties of the operations *)

Section Acceptance.
Context {enc : Encoding}.

(** Past the decoding, the result with the number of clock readings: none
    for the checks (a)-(d), one for (e), two from (f) on. *)
Lemma VerifyIDToken_reached_readings c idToken h p clk n :
  reaches_checks c idToken h p ->
  let checks := semantic_checks (projectID c) h p (clk n) (clk (S n)) in
  VerifyIDToken c idToken clk n =
    match first_failing (take 4 checks) with
    | Some e => (Err e, n)
    | None =>
        match first_failing (take 1 (drop 4 checks)) with
        | Some e => (Err e, S n)
        | None =>
            match first_failing (drop 5 checks) with
            | Some e => (Err e, S (S n))
            | None => (Ok (set_UID p (Subject p)), S (S n))
            end
        end
    end.
Proof.
  intros (Hp & Ht & Hv & s0 & s1 & p0 & m & H0 & H1 & Hh & Hp0 & Hm & ->).
  unfold VerifyIDToken.
  rewrite !bool_decide_eq_false_2 by done. rewrite Hv.
  unfold_M. rewrite H0. simpl. rewrite Hh, H1. simpl. rewrite Hp0, Hm.
  repeat match goal with
         | |- context [if ?b then _ else _] => destruct b; simpl; try done
         end.
Qed.

(** Every check of the chain is false on an accepted token. *)
Lemma accepted_checks c h p t_iat t_exp :
  first_failing (semantic_checks (projectID c) h p t_iat t_exp) = None ->
  KeyID h ≠ "" /\ Algorithm h = "RS256" /\ Audience p = projectID c /\
  Issuer p = issuerPrefix +:+ projectID c /\
  IssuedAt p <= t_iat /\ t_exp <= Expires p /\
  (1 <= String.length (Subject p) <= 128)%nat.
Proof.
  unfold semantic_checks, first_failing. intros Hnone.
  repeat match type of Hnone with
         | (if ?b then _ else _) = None => destruct b eqn:?; [done|]
         end.
  repeat match goal with
         | H : bool_decide _ = false |- _ => apply bool_decide_eq_false in H
         end.
  assert (Hsub : (String.length (Subject p) <> 0)%nat).
  { destruct (Subject p); [done|]. simpl. lia. }
  repeat split; try done; try lia.
  - by destruct (decide (Algorithm h = "RS256")).
  - by destruct (decide (Audience p = projectID c)).
  - by destruct (decide (Issuer p = issuerPrefix +:+ projectID c)).
  - by apply Nat.ltb_ge.
Qed.

(** X1: a token that [VerifyIDToken] returns was accepted by the signature
    verification of a configured client, has a key id and the algorithm
    RS256 in its header, the project id as audience, the issuer prefix
    followed by the project id as issuer, an issued-at not after the first
    clock reading, an expiry not before the second one, a subject of 1 to
    128 bytes and that subject as UID; the clock was read exactly twice,
    and if it did not run backwards between the readings, the issued-at is
    not after the expiry. *)
Theorem accepted_token_is_valid c idToken clk n t n' :
  VerifyIDToken c idToken clk n = (Ok t, n') ->
  projectID c ≠ "" /\ idToken ≠ "" /\
  verifyToken idToken (ks c) = None /\
  (exists h, header_of idToken = Ok h /\
             KeyID h ≠ "" /\ Algorithm h = "RS256") /\
  Audience t = projectID c /\
  Issuer t = issuerPrefix +:+ projectID c /\
  IssuedAt t <= clk n /\ clk (S n) <= Expires t /\
  (1 <= String.length (Subject t) <= 128)%nat /\
  UID t = Subject t /\
  n' = S (S n) /\
  (clk n <= clk (S n) -> IssuedAt t <= Expires t).
Proof.
  intros Hrun. pose proof Hrun as Hrun0.
  apply VerifyIDToken_accepted in Hrun as (h & p & Hreach & Hnone & ->).
  pose proof (accepted_checks _ _ _ _ _ Hnone)
    as (Hkid & Halg & Haud & Hiss & Hiat & Hexp & Hsub).
  pose proof (VerifyIDToken_reached_readings c idToken h p clk n Hreach)
    as Hfull.
  cbv zeta in Hfull. rewrite Hrun0 in Hfull.
  assert (Hn : n' = S (S n)).
  { repeat match type of Hfull with
           | _ = match ?x with _ => _ end => destruct x; [done|]
           end.
    congruence. }
  destruct Hreach as (Hp & Ht & Hv & s0 & s1 & p0 & m & H0 & _ & Hh & _).
  do 3 (split; [done|]). split.
  { exists h. split; [|done]. unfold header_of.
    by rewrite (nth_lookup_Some _ _ _ _ H0). }
  cbn [Audience Issuer IssuedAt Expires Subject UID set_UID].
  repeat split; try done; lia.
Qed.

(** X2: a token that reaches the checks with a key id, the algorithm
    RS256, the project id as audience, the expected issuer, an issued-at
    not after the first clock reading, an expiry not before the second one
    and a subject of 1 to 128 bytes is returned, with the subject as UID,
    after exactly two clock readings. *)
Theorem valid_token_is_accepted c idToken h p clk n :
  reaches_checks c idToken h p ->
  KeyID h ≠ "" -> Algorithm h = "RS256" ->
  Audience p = projectID c ->
  Issuer p = issuerPrefix +:+ projectID c ->
  IssuedAt p <= clk n -> clk (S n) <= Expires p ->
  (1 <= String.length (Subject p) <= 128)%nat ->
  VerifyIDToken c idToken clk n = (Ok (set_UID p (Subject p)), S (S n)).
Proof.
  intros Hreach Hkid Halg Haud Hiss Hiat Hexp [Hlo Hhi].
  rewrite (VerifyIDToken_reached_readings c idToken h p clk n Hreach).
  cbv zeta. unfold semantic_checks. simpl.
  rewrite (bool_decide_eq_false_2 (KeyID h = "")) by done.
  rewrite (bool_decide_eq_false_2 (Algorithm h ≠ "RS256")) by auto.
  rewrite (bool_decide_eq_false_2 (Audience p ≠ projectID c)) by auto.
  rewrite (bool_decide_eq_false_2 (Issuer p ≠ _)) by auto.
  replace (IssuedAt p >? clk n) with false by (symmetry; lia).
  replace (Expires p <? clk (S n)) with false by (symmetry; lia).
  rewrite (bool_decide_eq_false_2 (Subject p = "")).
  2: { intros Hs. rewrite Hs in Hlo. simpl in Hlo. lia. }
  by replace (128 <? String.length (Subject p))%nat with false
    by (symmetry; apply Nat.ltb_ge; lia).
Qed.

(** X3: the number of clock readings of [VerifyIDToken] is decided by its
    outcome: two when it returns a token or one of the errors of the
    expiry and subject checks, one when it returns the issued-in-future
    error, and none for every other error. *)
Theorem clock_readings c idToken clk n r n' :
  VerifyIDToken c idToken clk n = (r, n') ->
  n' = match r with
       | Ok _ => S (S n)
       | Err (ErrIssuedInFuture _) => S n
       | Err (ErrExpired _) | Err ErrEmptySubject | Err ErrSubjectTooLong =>
           S (S n)
       | Err _ => n
       end.
Proof.
  intros Hrun. pose proof Hrun as Hrun0. unfold VerifyIDToken in Hrun.
  case_bool_decide as Hp; [by injection Hrun as <- <-|].
  case_bool_decide as Ht; [by injection Hrun as <- <-|].
  destruct (verifyToken idToken (ks c)) as [e|] eqn:Hv.
  { injection Hrun as <- <-.
    destruct (verifyToken_failure _ _ _ Hv) as [E|[E|E]];
      by destruct e. }
  unfold_M.
  destruct (Split idToken "." !! 0%nat) as [s0|] eqn:H0;
    [|by injection Hrun as <- <-].
  simpl in Hrun.
  destruct (decode UnmarshalHeader s0) as [h|e] eqn:Hh.
  2: { injection Hrun as <- <-.
       by destruct (decode_failure _ _ _ Hh) as [->| ->]. }
  destruct (Split idToken "." !! 1%nat) as [s1|] eqn:H1;
    [|by injection Hrun as <- <-].
  simpl in Hrun.
  destruct (decode UnmarshalToken s1) as [p0|e] eqn:Hp0.
  2: { injection Hrun as <- <-.
       by destruct (decode_failure _ _ _ Hp0) as [->| ->]. }
  destruct (decode UnmarshalClaims s1) as [m|e] eqn:Hm.
  2: { injection Hrun as <- <-.
       by destruct (decode_failure _ _ _ Hm) as [->| ->]. }
  clear Hrun.
  assert (Hreach : reaches_checks c idToken h
            (set_Claims p0 (foldl (fun m r => delete r m) m standardClaims))).
  { do 3 (split; [done|]). by exists s0, s1, p0, m. }
  pose proof (VerifyIDToken_reached_readings c idToken h _ clk n Hreach)
    as Hfull.
  cbv zeta in Hfull. rewrite Hrun0 in Hfull.
  unfold semantic_checks in Hfull. simpl in Hfull.
  repeat match type of Hfull with
         | context [if ?b then _ else _] => destruct b; simpl in Hfull
         end; by injection Hfull as -> ->.
Qed.

(** X4: [CustomTokenWithClaims] returns a token exactly when the signer
    gives its identity, the uid has 1 to 128 bytes, no reserved name is a
    key of the claim map, whatever its value, and [jwtInfo.Token] returns
    that token for the header and payload built from them; the clock is
    then read once. *)
Theorem mint_succeeds_iff c uid devClaims clk n tok n' :
  CustomTokenWithClaims c uid devClaims clk n = (Ok tok, n') <->
  exists iss,
    Email (signer_ c) = Got iss /\
    (1 <= String.length uid <= 128)%nat /\
    (forall k, k ∈ reservedClaims -> devClaims !! k = None) /\
    jwtInfo_Token
      {| header := custom_header;
         payload := {| customToken.Iss := iss;
                       customToken.Sub := iss;
                       customToken.Aud := firebaseAudience;
                       customToken.UID := uid;
                       customToken.Iat := clk n;
                       customToken.Exp := add64 (clk n) tokenExpSeconds;
                       customToken.Claims := devClaims |} |}
      (signer_ c) = Ok tok /\
    n' = S n.
Proof.
  split.
  - intros Hrun.
    apply CustomTokenWithClaims_success in Hrun
      as (iss & HE & Hlen & Hdis & -> & Htok).
    exists iss. do 2 (split; [done|]). split; [|done].
    intros k Hk. destruct (devClaims !! k) as [v|] eqn:Hv; [|done].
    assert (Hin : k ∈ disallowed devClaims)
      by (apply elem_of_disallowed; eauto).
    rewrite Hdis in Hin. by apply not_elem_of_nil in Hin.
  - intros (iss & HE & Hlen & Hnone & Htok & ->).
    rewrite (CustomTokenWithClaims_valid_uid _ _ _ _ _ iss) by done.
    rewrite (disallowed_none _ Hnone). by rewrite Htok.
Qed.

(** X5: [VerifyIDTokenAndCheckRevoked] returns only a token that
    [VerifyIDToken] returns, after the same clock readings, for a user that
    the lookup finds under the subject of the token and whose cutoff is not
    after the issued-at times 1000; it returns every error of
    [VerifyIDToken] as it is, and the error of the lookup when the lookup
    fails. *)
Theorem check_revoked_refines c idToken clk n :
  (forall t n',
     VerifyIDTokenAndCheckRevoked c idToken clk n = (Ok t, n') ->
     VerifyIDToken c idToken clk n = (Ok t, n') /\
     exists user,
       is_ c (Subject t) = Got user /\
       TokensValidAfterMillis user <= mul64 (IssuedAt t) 1000) /\
  (forall e n',
     VerifyIDToken c idToken clk n = (Err e, n') ->
     VerifyIDTokenAndCheckRevoked c idToken clk n = (Err e, n')) /\
  (forall t n' msg,
     VerifyIDToken c idToken clk n = (Ok t, n') ->
     is_ c (Subject t) = Failed msg ->
     VerifyIDTokenAndCheckRevoked c idToken clk n
       = (Err (ErrUserLookup msg), n')).
Proof.
  unfold VerifyIDTokenAndCheckRevoked. unfold_M.
  destruct (VerifyIDToken c idToken clk n) as [[p|e] m] eqn:Hrun.
  - assert (Huid : UID p = Subject p).
    { by apply VerifyIDToken_accepted in Hrun as (h & q & _ & _ & ->). }
    unfold GetUser. rewrite Huid. split; [|split].
    + intros t n' Hres.
      destruct (is_ c (Subject p)) as [user|msg] eqn:Hu; [|done].
      simpl in Hres.
      destruct (Z.ltb_spec (mul64 (IssuedAt p) 1000)
                  (TokensValidAfterMillis user)); [done|].
      injection Hres as <- <-. split; [done|]. by exists user.
    + intros e n' [=].
    + intros t n' msg [= <- <-] Hu. by rewrite Hu.
  - split; [|split].
    + intros t n' [=].
    + by intros e' n' [= <- <-].
    + intros t n' msg [=].
Qed.

(** X6: when the cutoff of the user is a whole second [T], as
    [RevokeRefreshTokens] sets it, an accepted token (whose issued-at times
    1000 is an [int64]) is revoked exactly when it was issued before the
    second [T]; a token issued in the second [T] itself, or later, is
    returned. *)
Theorem whole_second_cutoff c idToken clk n p n' user T :
  VerifyIDToken c idToken clk n = (Ok p, n') ->
  GetUser c (UID p) = Ok user ->
  TokensValidAfterMillis user = T * 1000 ->
  in_int64 (IssuedAt p * 1000) ->
  (VerifyIDTokenAndCheckRevoked c idToken clk n = (Err ErrIDTokenRevoked, n')
   <-> IssuedAt p < T) /\
  (VerifyIDTokenAndCheckRevoked c idToken clk n = (Ok p, n')
   <-> T <= IssuedAt p).
Proof.
  intros Hrun Huser HT Hrange.
  unfold VerifyIDTokenAndCheckRevoked. unfold_M. rewrite Hrun, Huser.
  unfold mul64. rewrite (wrap64_in_range _ Hrange), HT.
  destruct (Z.ltb_spec (IssuedAt p * 1000) (T * 1000)) as [Hlt|Hge].
  - split.
    + split; [intros _; lia|done].
    + split; [done|lia].
  - split.
    + split; [done|lia].
    + split; [intros _; lia|done].
Qed.

End Acceptance.

Section Decoding.
Context {enc : Encoding} {tgt : TokenTarget}.

(** X7: after a successful [decodeFrom], the claim map of the receiver is
    what the segment decodes to without the six standard names, whatever
    claim map the receiver held before. *)
Theorem decodeFrom_claims t s t' :
  decodeFrom t s = (None, t') ->
  exists decoded,
    decode UnmarshalClaims s = Ok decoded /\
    (forall k, k ∈ standardClaims -> Claims t' !! k = None) /\
    (forall k, k ∉ standardClaims -> Claims t' !! k = decoded !! k).
Proof.
  unfold decodeFrom. intros Hrun.
  destruct (decode UnmarshalClaims s) as [m|e]; [|done].
  destruct (DecodeString s) as [b|]; [|done].
  destruct (UnmarshalInto t b) as [t1 []]; [|done].
  assert (Ht' : t' = set_Claims t1
                       (foldl (fun m r => delete r m) m standardClaims))
    by congruence.
  rewrite Ht'. exists m. split; [done|].
  unfold set_Claims. cbn [Claims]. split.
  - intros k Hk. rewrite lookup_delete_all. by rewrite decide_True.
  - intros k Hk. rewrite lookup_delete_all. by rewrite decide_False.
Qed.

(** X8: when unmarshalling into the zero [Token] is unmarshalling a
    [Token], [decodeFrom] on the zero [Token] succeeds exactly when the two
    decodings that [VerifyIDToken] writes out succeed, with the same
    result; so the payload on which [VerifyIDToken] runs its checks is the
    one [decodeFrom] gives for the second segment. *)
Theorem decodeFrom_agrees :
  into_zero_agrees ->
  (forall s p,
     decodeFrom zeroToken s = (None, p) <->
     exists p0 m,
       decode UnmarshalToken s = Ok p0 /\
       decode UnmarshalClaims s = Ok m /\
       p = set_Claims p0 (foldl (fun m r => delete r m) m standardClaims)) /\
  (forall c idToken h p,
     reaches_checks c idToken h p ->
     exists s1, Split idToken "." !! 1%nat = Some s1 /\
                decodeFrom zeroToken s1 = (None, p)).
Proof.
  intros Hzero.
  assert (Hiff : forall s p,
     decodeFrom zeroToken s = (None, p) <->
     exists p0 m,
       decode UnmarshalToken s = Ok p0 /\
       decode UnmarshalClaims s = Ok m /\
       p = set_Claims p0 (foldl (fun m r => delete r m) m standardClaims)).
  { intros s p. unfold decodeFrom, decode at 2. split.
    - intros Hrun.
      destruct (decode UnmarshalClaims s) as [m|e]; [|done].
      destruct (DecodeString s) as [b|]; [|done].
      destruct (UnmarshalInto zeroToken b) as [t1 []] eqn:Hinto; [|done].
      assert (Hp : p = set_Claims t1
                         (foldl (fun m r => delete r m) m standardClaims))
        by congruence.
      exists t1, m. apply Hzero in Hinto. by rewrite Hinto.
    - intros (p0 & m & Hp0 & Hm & ->). rewrite Hm.
      destruct (DecodeString s) as [b|]; [|done].
      destruct (UnmarshalToken b) as [t1|] eqn:Ht1; [|done].
      injection Hp0 as <-. apply Hzero in Ht1. by rewrite Ht1. }
  split; [done|].
  intros c idToken h p (_ & _ & _ & s0 & s1 & p0 & m & _ & H1 & _ & Hp0 & Hm & ->).
  exists s1. split; [done|]. apply Hiff. by exists p0, m.
Qed.

End Decoding.

Section Constructing.
Context {enc : Encoding} {ClientOption HTTPClient : Type}.
Implicit Types (pf : Platform ClientOption HTTPClient)
               (cfg : AuthConfig ClientOption).

(** X9: credentials that are present and not empty decide the signer or
    the failure of [NewClient]: when they cannot be unmarshalled, or hold a
    private key and a client email of which no signer can be made,
    [NewClient] fails with that error and does not fall back on the default
    signer; when a signer is made of them, it is the signer of the client;
    only when the private key or the client email is empty is the signer
    the default one. *)
Theorem NewClient_signer pf cfg creds :
  Creds cfg = Some creds -> JSON creds ≠ "" ->
  (forall msg,
     UnmarshalServiceAccount pf (JSON creds) = Failed msg ->
     NewClient pf cfg = Failed msg) /\
  (forall pk em,
     UnmarshalServiceAccount pf (JSON creds) = Got (pk, em) ->
     pk ≠ "" -> em ≠ "" ->
     (forall msg, newServiceAccountSigner pf pk em = Failed msg ->
                  NewClient pf cfg = Failed msg) /\
     (forall s c, newServiceAccountSigner pf pk em = Got s ->
                  NewClient pf cfg = Got c -> signer_ c = s)) /\
  (forall pk em c,
     UnmarshalServiceAccount pf (JSON creds) = Got (pk, em) ->
     pk = "" \/ em = "" ->
     NewClient pf cfg = Got c -> signer_ c = newCryptoSigner pf).
Proof.
  intros Hcreds Hjson.
  assert (Hlen : (0 <? String.length (JSON creds))%nat = true).
  { apply Nat.ltb_lt. destruct (JSON creds); [done|]. simpl. lia. }
  unfold NewClient, credentialSigner. rewrite Hcreds, Hlen.
  split; [|split].
  - intros msg Hu. by rewrite Hu.
  - intros pk em Hu Hpk Hem. rewrite Hu.
    rewrite !bool_decide_eq_true_2 by done. cbn [andb]. split.
    + intros msg Hs. by rewrite Hs.
    + intros s c Hs. rewrite Hs.
      destruct (NewHTTPClient pf (Opts cfg)) as [hc|]; [|done].
      destruct (identitytoolkit_New pf hc); [|done].
      by intros [= <-].
  - intros pk em c Hu Hempty. rewrite Hu.
    replace (bool_decide (pk ≠ "") && bool_decide (em ≠ "")) with false.
    2: { symmetry. apply andb_false_iff.
         destruct Hempty as [-> | ->]; [left|right];
           by apply bool_decide_eq_false_2; intros Hne. }
    destruct (NewHTTPClient pf (Opts cfg)) as [hc|]; [|done].
    destruct (identitytoolkit_New pf hc); [|done].
    by intros [= <-].
Qed.

(** X10: a client that [NewClient] returns has the project id of the
    configuration, unchecked, the version prefixed by [Go/Admin/], the
    user service made of the HTTP client of the options and the key source
    of the certificate URL on that HTTP client; without credentials, or
    with empty ones, its signer is the default one. If the project id of
    the configuration is empty, the client is made all the same, and its
    [VerifyIDToken] rejects every token with the project-id error. *)
Theorem NewClient_fields pf cfg c :
  NewClient pf cfg = Got c ->
  projectID c = ProjectID cfg /\
  version c = "Go/Admin/" +:+ Version cfg /\
  (exists hc,
     NewHTTPClient pf (Opts cfg) = Got hc /\
     identitytoolkit_New pf hc = Got (is_ c) /\
     ks c = newHTTPKeySource pf idTokenCertURL hc) /\
  (Creds cfg = None \/ Creds cfg = Some {| JSON := "" |} ->
   signer_ c = newCryptoSigner pf) /\
  (ProjectID cfg = "" ->
   forall idToken clk n,
     VerifyIDToken c idToken clk n = (Err ErrProjectIDNotAvailable, n)).
Proof.
  unfold NewClient. intros Hnew.
  destruct (credentialSigner pf cfg) as [chosen|] eqn:Hsigner; [|done].
  destruct (NewHTTPClient pf (Opts cfg)) as [hc|] eqn:Hhc; [|done].
  destruct (identitytoolkit_New pf hc) as [is'|] eqn:His; [|done].
  injection Hnew as <-. cbn [projectID version ks is_ signer_].
  do 2 (split; [done|]). split; [by exists hc|]. split.
  - unfold credentialSigner in Hsigner.
    intros [Hc|Hc]; rewrite Hc in Hsigner; simpl in Hsigner;
      by injection Hsigner as <-.
  - intros Hproj idToken clk n. by apply VerifyIDToken_unconfigured.
Qed.

End Constructing.

(** ** The further properties on the reference instance *)

#[local] Existing Instance Reference.target.

Lemma reference_string_into k fs :
  Reference.string_into k fs "" =
    match Reference.string_field k fs with
    | Some s => (s, true)
    | None => ("", false)
    end.
Proof.
  unfold Reference.string_into, Reference.string_field.
  by destruct (Reference.field k fs) as [[]|].
Qed.

Lemma reference_int64_into k fs :
  Reference.int64_into k fs 0 =
    match Reference.int64_field k fs with
    | Some n => (n, true)
    | None => (0, false)
    end.
Proof.
  unfold Reference.int64_into, Reference.int64_field.
  destruct (Reference.field k fs) as [[| |n| | |]|]; try done.
  by destruct ((min_int64 <=? n) && (n <=? max_int64)).
Qed.

Lemma reference_into_zero : into_zero_agrees.
Proof.
  intros b t. cbn [UnmarshalInto UnmarshalToken Reference.target
                   Reference.encoding].
  unfold Reference.unmarshal_token_into, Reference.unmarshal_token.
  destruct (Reference.parse_json b) as [[| | | | |fs]|];
    try (split; intros [=]; done).
  - split; by intros [= <-].
  - cbn [Issuer Audience Expires IssuedAt Subject UID Claims zeroToken].
    rewrite !reference_string_into, !reference_int64_into.
    destruct (Reference.string_field "iss" fs); simpl;
    destruct (Reference.string_field "aud" fs); simpl;
    destruct (Reference.int64_field "exp" fs); simpl;
    destruct (Reference.int64_field "iat" fs); simpl;
    destruct (Reference.string_field "sub" fs); simpl;
    destruct (Reference.string_field "uid" fs); simpl;
    split; intros [=]; by subst.
Qed.

Lemma accepted_token_is_valid_witness :
  Audience (set_UID Reference.alice_payload "alice")
    = projectID Reference.client /\
  IssuedAt (set_UID Reference.alice_payload "alice") <= Reference.clk 0%nat /\
  Reference.clk 1%nat <= Expires (set_UID Reference.alice_payload "alice") /\
  UID (set_UID Reference.alice_payload "alice")
    = Subject (set_UID Reference.alice_payload "alice").
Proof.
  destruct (accepted_token_is_valid Reference.client Reference.alice_token
              Reference.clk 0%nat (set_UID Reference.alice_payload "alice")
              2%nat reference_alice_verified)
    as (_ & _ & _ & _ & Haud & _ & Hiat & Hexp & _ & Huid & _).
  exact (conj Haud (conj Hiat (conj Hexp Huid))).
Defined.

Lemma valid_token_is_accepted_witness :
  VerifyIDToken Reference.client Reference.alice_token Reference.clk 0%nat
    = (Ok (set_UID Reference.alice_payload "alice"), 2%nat).
Proof.
  apply (valid_token_is_accepted Reference.client Reference.alice_token
           Reference.alice_header Reference.alice_payload Reference.clk
           0%nat reference_alice_decoded).
  - discriminate.
  - reflexivity.
  - reflexivity.
  - reflexivity.
  - vm_compute. discriminate.
  - vm_compute. discriminate.
  - simpl. lia.
Defined.

Lemma reference_issued_in_future :
  VerifyIDToken Reference.client Reference.alice_token
    (Reference.fixed_clock (Reference.t0 - 1)) 0%nat
    = (Err (ErrIssuedInFuture Reference.t0), 1%nat).
Proof. by vm_compute. Qed.

Lemma clock_readings_witness : 1%nat = 1%nat.
Proof.
  exact (clock_readings Reference.client Reference.alice_token
           (Reference.fixed_clock (Reference.t0 - 1)) 0%nat
           (Err (ErrIssuedInFuture Reference.t0)) 1%nat
           reference_issued_in_future).
Defined.

Lemma whole_second_cutoff_witness :
  VerifyIDTokenAndCheckRevoked Reference.client Reference.alice_early_token
    Reference.clk 0%nat = (Err ErrIDTokenRevoked, 2%nat).
Proof.
  assert (Hrange : in_int64
            (IssuedAt (set_UID Reference.alice_early_payload "alice") * 1000)).
  { vm_compute. split; discriminate. }
  apply (proj1 (whole_second_cutoff Reference.client
                  Reference.alice_early_token Reference.clk 0%nat
                  (set_UID Reference.alice_early_payload "alice") 2%nat
                  {| UserID := "alice";
                     TokensValidAfterMillis := 1700000000000 |}
                  1700000000
                  reference_alice_early_verified eq_refl eq_refl Hrange)).
  vm_compute. reflexivity.
Defined.

Lemma reference_redecoded :
  decodeFrom Reference.stale_token Reference.alice_segment
    = (None, Reference.redecoded_token).
Proof. by vm_compute. Qed.

Lemma decodeFrom_claims_witness :
  exists decoded,
    decode UnmarshalClaims Reference.alice_segment = Ok decoded /\
    (forall k, k ∈ standardClaims ->
               Claims Reference.redecoded_token !! k = None) /\
    (forall k, k ∉ standardClaims ->
               Claims Reference.redecoded_token !! k = decoded !! k).
Proof.
  exact (decodeFrom_claims Reference.stale_token Reference.alice_segment
           Reference.redecoded_token reference_redecoded).
Defined.

(** The claims that the receiver held are gone, the standard names too. *)
Example decodeFrom_replaces_claims :
  Claims Reference.stale_token !! "role" = Some (JStr "guest") /\
  Claims Reference.redecoded_token !! "role" = None /\
  Claims Reference.redecoded_token !! "sub" = None /\
  Claims Reference.redecoded_token !! "admin" = Some (JBool true).
Proof. repeat split; by vm_compute. Qed.

Lemma decodeFrom_agrees_witness :
  exists s1, Split Reference.alice_token "." !! 1%nat = Some s1 /\
             decodeFrom zeroToken s1 = (None, Reference.alice_payload).
Proof.
  exact (proj2 (decodeFrom_agrees reference_into_zero) Reference.client
           Reference.alice_token Reference.alice_header
           Reference.alice_payload reference_alice_decoded).
Defined.

Lemma NewClient_signer_witness :
  NewClient Reference.platform Reference.garbled_config
    = Failed "json: invalid character".
Proof.
  assert (Hjson : JSON {| JSON := "{not json" |} ≠ "") by discriminate.
  apply (proj1 (NewClient_signer Reference.platform Reference.garbled_config
                  {| JSON := "{not json" |} eq_refl Hjson)).
  vm_compute. reflexivity.
Defined.

(** A service account makes its own signer; a key that cannot be parsed
    makes no client. *)
Example NewClient_service_account :
  NewClient Reference.platform Reference.account_config
    = Got Reference.account_client /\
  NewClient Reference.platform Reference.bad_key_config
    = Failed "failed to parse the private key".
Proof. split; by vm_compute. Qed.

Lemma reference_bare_client :
  NewClient Reference.platform Reference.bare_config
    = Got Reference.bare_client.
Proof. by vm_compute. Qed.

Lemma NewClient_fields_witness :
  VerifyIDToken Reference.bare_client Reference.alice_token Reference.clk
    0%nat = (Err ErrProjectIDNotAvailable, 0%nat).
Proof.
  destruct (NewClient_fields Reference.platform Reference.bare_config
              Reference.bare_client reference_bare_client)
    as (_ & _ & _ & _ & Hverify).
  exact (Hverify eq_refl Reference.alice_token Reference.clk 0%nat).
Defined.

(** The client without project id still mints. *)
Example bare_client_mints :
  exists tok, CustomToken Reference.bare_client "alice" Reference.clk 0%nat
                = (Ok tok, 1%nat).
Proof. eexists. by vm_compute. Qed.
